(** * MemoryManager: the tiered memory coordinator of microgpt-agent-sdk

    A shallow embedding of [src/core/memory/MemoryManager.ts] together with
    the two backends it talks to (the Redis commands and the Supabase table
    operations it issues), followed by the properties of [remember],
    [recall], [learn], [forget] and [getStats].

    Conventions of the embedding.
    - A JavaScript [Date] is its [getTime()] value, a [Z] of milliseconds.
    - A JavaScript number that is only compared ([confidence], embedding
      coordinates) is the rational [Q] it denotes; counters and limits are
      [Z]. The one average, in [getStats], is the exact quotient.
    - The [inMemoryCache] is a JavaScript [Map]: an association list in
      insertion order, because [recall] depends on the iteration order.
    - [async] methods await every call in sequence, so a method is a
      function from the manager's state to a result and a new state.
    - The state holds no clock. The deletion that [storeShortTerm] schedules
      with [setTimeout] is [storeShortTerm_timer], with the delay that Node
      gives it, and the callback is the step [timer_fires]. The general
      properties about an entry say which timers may have fired; the
      concrete runs, whose [ttl] is an hour, are observed before any has.
      The Redis server answers every command and its keys are observed
      before their expiry.
    - The clock and [Math.random] are inputs of the functions that read
      them. *)

From Stdlib Require Import String Ascii List ZArith QArith Bool Lia.
From Stdlib Require Import DecimalString Permutation.
Import ListNotations.

Close Scope Q_scope.
Open Scope string_scope.
Open Scope list_scope.
Open Scope Z_scope.

Set Implicit Arguments.
Set Warnings "-register-all".

(** ** JavaScript values used by the manager *)

(** What a thrown exception carries. *)
Inductive JsError : Type :=
| TypeError (message : string).

(** A computation that returns or throws (a rejected promise). *)
Inductive Result (A : Type) : Type :=
| Ok (a : A)
| Throw (e : JsError).

Arguments Ok {A} a.
Arguments Throw {A} e.

Definition bind {A B : Type} (r : Result A) (k : A -> Result B) : Result B :=
  match r with
  | Ok a => k a
  | Throw e => Throw e
  end.

Notation "x <- r ;; k" := (bind r (fun x => k))
  (at level 61, r at next level, right associativity).

(** [a < b] on JavaScript numbers that are rationals. *)
Definition Qltb (a b : Q) : bool := negb (Qle_bool b a).

(** Truthiness of a number: [0] is falsy. *)
Definition truthyZ (n : Z) : bool := negb (n =? 0).
Definition truthyQ (q : Q) : bool := negb (Qeq_bool q 0).

(** Strings. *)
Module Str.

(** [hay.startsWith(pre)] *)
Definition startsWith (hay pre : string) : bool := String.prefix pre hay.

(** [hay.includes(needle)] *)
Fixpoint includes (hay needle : string) : bool :=
  match hay with
  | EmptyString => String.prefix needle EmptyString
  | String _ rest => String.prefix needle hay || includes rest needle
  end.

(** Whether the character occurs in the string. *)
Fixpoint mem (c : ascii) (s : string) : bool :=
  match s with
  | EmptyString => false
  | String d rest => Ascii.eqb c d || mem c rest
  end.

End Str.

(** The JSON-like payloads the manager stores without looking inside. An
    object is the list of its properties; the manager never reads their
    order, and an object is meant up to it. *)
Inductive json : Type :=
| JNull
| JBool (b : bool)
| JNum (q : Q)
| JStr (s : string)
| JDate (ms : Z)
| JIsoString (ms : Z)
| JArr (items : list json)
| JObj (fields : list (string * json)).

(** [o.name] on a parsed object; [None] is [undefined]. *)
Fixpoint json_get (fields : list (string * json)) (name : string) : option json :=
  match fields with
  | [] => None
  | (k, v) :: rest => if String.eqb k name then Some v else json_get rest name
  end.

(** What [JSON.parse(JSON.stringify(j))] gives, also the value that comes
    back from a JSON column: a [Date] at any depth has become the ISO string
    of its instant, [JIsoString]. *)
Fixpoint toJSON (j : json) : json :=
  match j with
  | JDate ms => JIsoString ms
  | JArr items => JArr (map toJSON items)
  | JObj fields =>
      JObj (map (fun kv : string * json => let (k, v) := kv in (k, toJSON v))
                fields)
  | JNull | JBool _ | JNum _ | JStr _ | JIsoString _ => j
  end.

(** ** Data model ([src/types]) *)

Inductive MemoryType : Type := Transaction | Pattern | Decision | Outcome.

Definition MemoryType_eqb (a b : MemoryType) : bool :=
  match a, b with
  | Transaction, Transaction | Pattern, Pattern
  | Decision, Decision | Outcome, Outcome => true
  | _, _ => false
  end.

(** The [timestamp] field holds a [Date]; after [JSON.parse(JSON.stringify m)]
    it holds the ISO string of the same instant, which is not a [Date]. An
    optional field is an [option]: [None] is the field left out, or the
    [null] of an empty column. *)
Inductive TimeValue : Type :=
| DateObj (ms : Z)
| IsoString (ms : Z).

Record Memory : Type := mkMemory {
  m_id : string;
  m_agentId : string;
  m_timestamp : TimeValue;
  m_type : MemoryType;
  m_content : json;
  m_confidence : option Q;
  m_embedding : option (list Q);
  m_metadata : option json
}.

(** [Omit<Memory, 'id' | 'timestamp'>], the argument of [remember]. *)
Record MemoryInput : Type := mkMemoryInput {
  in_agentId : string;
  in_type : MemoryType;
  in_content : json;
  in_confidence : option Q;
  in_embedding : option (list Q);
  in_metadata : option json
}.

(** The [query] argument of [recall]. *)
Record Query : Type := mkQuery {
  q_type : option MemoryType;
  q_limit : option Z;
  q_since : option Z;
  q_sessionId : option string
}.

Definition noQuery : Query := mkQuery None None None None.

(** The [criteria] argument of [forget]. *)
Record Criteria : Type := mkCriteria {
  olderThan : option Z;
  c_type : option MemoryType;
  confidenceLessThan : option Q
}.

Inductive ShortTermProvider : Type := StRedis | StMemory.
Inductive LongTermProvider : Type := LtSupabase | LtPostgresql | LtSqlite.

Record SemanticConfig : Type := mkSemanticConfig {
  dimension : Z;
  indexName : string
}.

Record MemoryConfig : Type := mkMemoryConfig {
  shortTerm_provider : ShortTermProvider;
  shortTerm_ttl : Z;
  shortTerm_maxItems : option Z;
  longTerm : option LongTermProvider;
  semantic : option SemanticConfig
}.

(** The values held by [inMemoryCache : Map<string, any>] and handed back by
    [recall]: a full memory, the record written by [storeSemanticMemory], or
    the counters written by [updatePattern]. *)
Inductive CacheValue : Type :=
| VMemory (m : Memory)
| VSemantic (embedding : list Q) (meta_id : string) (meta_type : MemoryType)
            (meta_confidence : option Q)
| VPattern (frequency successes : Z).

(** Property reads on such a value; [None] is [undefined]. *)
Definition id_of (v : CacheValue) : option string :=
  match v with VMemory m => Some (m_id m) | _ => None end.

Definition timestamp_of (v : CacheValue) : option TimeValue :=
  match v with VMemory m => Some (m_timestamp m) | _ => None end.

Definition type_of (v : CacheValue) : option MemoryType :=
  match v with VMemory m => Some (m_type m) | _ => None end.

Definition confidence_of (v : CacheValue) : option Q :=
  match v with VMemory m => m_confidence m | _ => None end.

(** [x.timestamp < d] for a [Date] [d]: a [Date] compares by its time; an ISO
    string or [undefined] converts to [NaN], and the comparison is false. *)
Definition timestamp_lt (t : option TimeValue) (d : Z) : bool :=
  match t with
  | Some (DateObj ms) => ms <? d
  | _ => false
  end.

(** [x.timestamp.getTime()] *)
Definition getTime (v : CacheValue) : Result Z :=
  match timestamp_of v with
  | Some (DateObj ms) => Ok ms
  | Some (IsoString _) => Throw (TypeError "timestamp.getTime is not a function")
  | None => Throw (TypeError "Cannot read properties of undefined (reading 'getTime')")
  end.

(** ** The JavaScript [Map] *)
Module JsMap.

Definition t (V : Type) : Type := list (string * V).

Definition empty {V : Type} : t V := [].

Fixpoint get {V : Type} (m : t V) (k : string) : option V :=
  match m with
  | [] => None
  | (k', v) :: rest => if String.eqb k' k then Some v else get rest k
  end.

Definition has {V : Type} (m : t V) (k : string) : bool :=
  match get m k with Some _ => true | None => false end.

(** [m.set(k, v)]: an existing key keeps its place, a new key goes last. *)
Fixpoint set {V : Type} (m : t V) (k : string) (v : V) : t V :=
  match m with
  | [] => [(k, v)]
  | (k', v') :: rest =>
      if String.eqb k' k then (k, v) :: rest else (k', v') :: set rest k v
  end.

(** [m.delete(k)] *)
Fixpoint delete {V : Type} (m : t V) (k : string) : t V :=
  match m with
  | [] => []
  | (k', v') :: rest =>
      if String.eqb k' k then rest else (k', v') :: delete rest k
  end.

(** [m.entries()] in iteration order. *)
Definition entries {V : Type} (m : t V) : list (string * V) := m.

Definition keys {V : Type} (m : t V) : list string := map fst m.

End JsMap.

(** ** The Redis commands the manager issues

    Strings and lists live under keys that never coincide ([memory:...] and
    [memories:...]), so the server is two maps. A string value is the JSON
    text of a memory. The server is reachable and answers every command;
    [SETEX] and [EXPIRE] take a positive number of seconds, and the maps are
    those seen before that time has passed. *)
Module Redis.

(** [JSON.stringify(memory)]: the text determines the memory. *)
Inductive JsonText : Type :=
| Stringified (m : Memory).

Definition JSON_stringify (m : Memory) : JsonText := Stringified m.

(** [JSON.parse(text)]: a [Date] was written as its ISO string and is read
    back as that string, in [timestamp] and at any depth of [content] and
    [metadata]. *)
Definition JSON_parse (text : JsonText) : Memory :=
  match text with
  | Stringified m =>
      mkMemory (m_id m) (m_agentId m)
        (match m_timestamp m with
         | DateObj ms => IsoString ms
         | IsoString ms => IsoString ms
         end)
        (m_type m) (toJSON (m_content m)) (m_confidence m) (m_embedding m)
        (option_map toJSON (m_metadata m))
  end.

Record t : Type := mk {
  strings : JsMap.t JsonText;
  lists : JsMap.t (list string)
}.

Definition empty : t := mk JsMap.empty JsMap.empty.

Definition list_at (r : t) (key : string) : list string :=
  match JsMap.get (lists r) key with
  | Some l => l
  | None => []
  end.

(** The elements from [start] to [stop], both included; a negative index
    counts from the end of the list. *)
Definition range {A : Type} (l : list A) (start stop : Z) : list A :=
  let llen := Z.of_nat (length l) in
  let start := if start <? 0 then llen + start else start in
  let stop := if stop <? 0 then llen + stop else stop in
  let start := if start <? 0 then 0 else start in
  if (start >? stop) || (start >=? llen) then []
  else
    let stop := if stop >=? llen then llen - 1 else stop in
    firstn (Z.to_nat (stop - start + 1)) (skipn (Z.to_nat start) l).

Definition setex (r : t) (key : string) (ttl : Z) (value : JsonText) : t :=
  mk (JsMap.set (strings r) key value) (lists r).

Definition get (r : t) (key : string) : option JsonText :=
  JsMap.get (strings r) key.

Definition lpush (r : t) (key : string) (value : string) : t :=
  mk (strings r) (JsMap.set (lists r) key (value :: list_at r key)).

Definition ltrim (r : t) (key : string) (start stop : Z) : t :=
  mk (strings r) (JsMap.set (lists r) key (range (list_at r key) start stop)).

Definition expire (r : t) (key : string) (ttl : Z) : t := r.

Definition lrange (r : t) (key : string) (start stop : Z) : list string :=
  range (list_at r key) start stop.

Definition llen (r : t) (key : string) : Z :=
  Z.of_nat (length (list_at r key)).

End Redis.

(** ** The Supabase tables the manager reads and writes

    Two tables, [agent_memories] (primary key [id]) and [agent_patterns]
    (primary key [agent_id, pattern_signature]). A call answers with data or
    with an error object; [healthy = false] is a project whose every call
    answers with an error. A select without [.limit] answers with every
    matching row. The [embedding] column is a vector of a fixed dimension,
    which is not modelled: the properties of the rows are about memories
    without an embedding or do not read that column. *)
Module Supabase.

Record MemoryRow : Type := mkMemoryRow {
  row_id : string;
  row_agent_id : string;
  row_memory_type : MemoryType;
  row_content : json;
  row_confidence : option Q;
  row_embedding : option (list Q);
  row_metadata : option json;
  row_created_at : Z
}.

Record PatternRow : Type := mkPatternRow {
  pat_agent_id : string;
  pat_signature : string;
  pat_frequency : Z;
  pat_success_rate : Q;
  pat_confidence : Q;
  pat_last_updated : Z
}.

Record t : Type := mk {
  agent_memories : list MemoryRow;
  agent_patterns : list PatternRow;
  healthy : bool
}.

Definition empty : t := mk [] [] true.

(** [{ data, error }] *)
Inductive Response (A : Type) : Type :=
| Data (a : A)
| Error.

Arguments Data {A} a.
Arguments Error {A}.

(** The row as the table keeps it: the request body is JSON, so the JSON
    columns [content] and [metadata] hold no [Date]. *)
Definition stored (row : MemoryRow) : MemoryRow :=
  mkMemoryRow (row_id row) (row_agent_id row) (row_memory_type row)
              (toJSON (row_content row)) (row_confidence row) (row_embedding row)
              (option_map toJSON (row_metadata row)) (row_created_at row).

(** [.insert(row)]: a second row with the same [id] is refused. *)
Definition insert (db : t) (row : MemoryRow) : t * Response unit :=
  if healthy db && negb (existsb (fun r => String.eqb (row_id r) (row_id row))
                                 (agent_memories db))
  then (mk (agent_memories db ++ [stored row]) (agent_patterns db) (healthy db),
        Data tt)
  else (db, Error).

(** One chained filter per field that the caller provided. *)
Definition opt_filter {A B : Type} (o : option A) (p : A -> B -> bool) (b : B) : bool :=
  match o with
  | Some a => p a b
  | None => true
  end.

(** [.select('*').eq('agent_id', a)] with the optional [.eq('memory_type', _)],
    [.gte('created_at', _)] and [.limit(_)]. *)
Definition select_memories (db : t) (agent : string) (ty : option MemoryType)
    (since : option Z) (limit : option Z) : Response (list MemoryRow) :=
  if healthy db then
    let rows :=
      filter (fun r =>
                String.eqb (row_agent_id r) agent
                && opt_filter ty (fun t r => MemoryType_eqb (row_memory_type r) t) r
                && opt_filter since (fun d r => d <=? row_created_at r) r)
             (agent_memories db) in
    Data (match limit with
          | Some n => firstn (Z.to_nat n) rows
          | None => rows
          end)
  else Error.

(** The predicate of [.delete().eq('agent_id', a)] with the optional
    [.lt('created_at', _)], [.eq('memory_type', _)] and [.lt('confidence', _)];
    a [NULL] confidence is below nothing. *)
Definition delete_matches (agent : string) (older : option Z)
    (ty : option MemoryType) (conf : option Q) (r : MemoryRow) : bool :=
  String.eqb (row_agent_id r) agent
  && opt_filter older (fun d r => row_created_at r <? d) r
  && opt_filter ty (fun t r => MemoryType_eqb (row_memory_type r) t) r
  && opt_filter conf (fun c r => match row_confidence r with
                                 | Some x => Qltb x c
                                 | None => false
                                 end) r.

(** [.delete()...select('id')]: removes the matching rows and returns their
    ids. *)
Definition delete_memories (db : t) (agent : string) (older : option Z)
    (ty : option MemoryType) (conf : option Q) : t * Response (list string) :=
  if healthy db then
    let p := delete_matches agent older ty conf in
    (mk (filter (fun r => negb (p r)) (agent_memories db))
        (agent_patterns db) (healthy db),
     Data (map row_id (filter p (agent_memories db))))
  else (db, Error).

(** [.select('*', { count: 'exact', head: true }).eq('agent_id', a)]; the
    count is [null] on an error. *)
Definition count_memories (db : t) (agent : string) : option Z :=
  if healthy db then
    Some (Z.of_nat (length (filter (fun r => String.eqb (row_agent_id r) agent)
                                   (agent_memories db))))
  else None.

Definition same_pattern (agent signature : string) (r : PatternRow) : bool :=
  String.eqb (pat_agent_id r) agent && String.eqb (pat_signature r) signature.

(** [.upsert(row, { onConflict: 'agent_id,pattern_signature' })] with the
    columns [frequency], [success_rate] and [last_updated]: a row with that
    key gets the columns of the new row, otherwise the new row is inserted
    with the default [confidence]. *)
Fixpoint upsert_rows (rows : list PatternRow) (agent signature : string)
    (frequency : Z) (success_rate : Q) (last_updated : Z) : list PatternRow :=
  match rows with
  | [] => [mkPatternRow agent signature frequency success_rate 0%Q last_updated]
  | r :: rest =>
      if same_pattern agent signature r
      then mkPatternRow agent signature frequency success_rate
                        (pat_confidence r) last_updated :: rest
      else r :: upsert_rows rest agent signature frequency success_rate last_updated
  end.

Definition upsert_pattern (db : t) (agent signature : string)
    (frequency : Z) (success_rate : Q) (last_updated : Z) : t * Response unit :=
  if healthy db then
    (mk (agent_memories db)
        (upsert_rows (agent_patterns db) agent signature frequency success_rate
                     last_updated)
        (healthy db), Data tt)
  else (db, Error).

(** [.from('agent_patterns').select('confidence').eq('agent_id', a)] *)
Definition select_pattern_confidence (db : t) (agent : string) : Response (list Q) :=
  if healthy db then
    Data (map pat_confidence
              (filter (fun r => String.eqb (pat_agent_id r) agent) (agent_patterns db)))
  else Error.

End Supabase.

(** ** The manager ([src/core/memory/MemoryManager.ts]) *)
Module MemoryManager.

Record t : Type := mk {
  config : MemoryConfig;
  redis : option Redis.t;
  supabase : option Supabase.t;
  inMemoryCache : JsMap.t CacheValue
}.

(** [new MemoryManager(config)]: a Redis client when the short-term provider
    is Redis; a Supabase client when the long-term provider is Supabase and
    the environment holds the credentials of a project
    ([project = Some _]). The methods test [this.redis] and [this.supabase],
    not the provider names, so the two clients are what the state keeps. The
    handler that the constructor registers on the client is
    [on_redis_error]. *)
Definition create (config : MemoryConfig) (server : Redis.t)
    (project : option Supabase.t) : t :=
  mk config
     (match shortTerm_provider config with
      | StRedis => Some server
      | StMemory => None
      end)
     (match longTerm config with
      | Some LtSupabase => project
      | _ => None
      end)
     JsMap.empty.

(** The ['error'] handler of the Redis client: it writes ['memory'] into
    [config.shortTerm.provider] and keeps the client. *)
Definition on_redis_error (mgr : t) : t :=
  mk (mkMemoryConfig StMemory (shortTerm_ttl (config mgr))
                     (shortTerm_maxItems (config mgr)) (longTerm (config mgr))
                     (semantic (config mgr)))
     (redis mgr) (supabase mgr) (inMemoryCache mgr).

(** What one call of [remember] reads from outside: [Date.now()] and the
    base-36 digits of [Math.random()] in [generateId], then [new Date()]. *)
Record Reading : Type := mkReading {
  id_clock : Z;
  random36 : list N;
  date_clock : Z
}.

Definition decimal (n : Z) : string := NilZero.string_of_int (Z.to_int n).

Definition digit36 (d : N) : ascii :=
  nth (N.to_nat (d mod 36))
      (list_ascii_of_string "0123456789abcdefghijklmnopqrstuvwxyz") "0"%char.

Definition base36 (digits : list N) : string :=
  string_of_list_ascii (map digit36 digits).

(** [`mem_${Date.now()}_${Math.random().toString(36).substr(2, 9)}`] *)
Definition generateId (now : Z) (random : list N) : string :=
  ("mem_" ++ decimal now ++ "_" ++ base36 (firstn 9 random))%string.

Definition memoryKey (agentId id : string) : string :=
  ("memory:" ++ agentId ++ ":" ++ id)%string.

Definition longtermKey (agentId id : string) : string :=
  ("longterm:" ++ agentId ++ ":" ++ id)%string.

Definition semanticKey (agentId id : string) : string :=
  ("semantic:" ++ agentId ++ ":" ++ id)%string.

Definition patternKey (agentId pattern : string) : string :=
  ("pattern:" ++ agentId ++ ":" ++ pattern)%string.

Definition listKey (agentId : string) : string :=
  ("memories:" ++ agentId)%string.

(** [n || d] for an optional number. *)
Definition number_or (n : option Z) (d : Z) : Z :=
  match n with
  | Some n => if truthyZ n then n else d
  | None => d
  end.

(** *** Helpers *)

Definition matchesQuery (memory : CacheValue) (query : Query) : bool :=
  if match q_type query with
     | Some ty =>
         match type_of memory with
         | Some ty' => negb (MemoryType_eqb ty' ty)
         | None => true
         end
     | None => false
     end
  then false
  else if match q_since query with
          | Some since => timestamp_lt (timestamp_of memory) since
          | None => false
          end
  then false
  else true.

Definition matchesForgetCriteria (memory : CacheValue) (criteria : Criteria) : bool :=
  if match olderThan criteria with
     | Some d => timestamp_lt (timestamp_of memory) d
     | None => false
     end
  then true
  else if match c_type criteria with
          | Some ty =>
              match type_of memory with
              | Some ty' => MemoryType_eqb ty' ty
              | None => false
              end
          | None => false
          end
  then true
  else if match confidenceLessThan criteria with
          | Some c =>
              truthyQ c && match confidence_of memory with
                           | Some x => Qltb x c
                           | None => false
                           end
          | None => false
          end
  then true
  else false.

Definition option_string_eqb (a b : option string) : bool :=
  match a, b with
  | Some x, Some y => String.eqb x y
  | None, None => true
  | _, _ => false
  end.

(** [seen.has(id)] on the [Set] of the ids met so far. *)
Definition seen_has (seen : list (option string)) (i : option string) : bool :=
  existsb (option_string_eqb i) seen.

(** The [filter] of [deduplicateMemories], with its [seen] set. *)
Fixpoint dedup_from (seen : list (option string)) (memories : list CacheValue)
    : list CacheValue :=
  match memories with
  | [] => []
  | memory :: rest =>
      if seen_has seen (id_of memory) then dedup_from seen rest
      else memory :: dedup_from (id_of memory :: seen) rest
  end.

Definition deduplicateMemories (memories : list CacheValue) : list CacheValue :=
  dedup_from [] memories.

(** The comparator of [recall]:
    [(a, b) => b.timestamp.getTime() - a.timestamp.getTime()]. *)
Definition byTimestampDesc (a b : CacheValue) : Result Z :=
  tb <- getTime b ;;
  ta <- getTime a ;;
  Ok (tb - ta).

(** [Array.prototype.sort(compare)]. The sort is stable, so with a consistent
    comparator its result does not depend on the engine's algorithm; this is
    insertion from the right. From two elements on every element is an
    argument of at least one comparison, in this as in any comparison sort,
    so an element on which the comparator throws makes the sort throw. *)
Fixpoint sort_insert (compare : CacheValue -> CacheValue -> Result Z)
    (x : CacheValue) (sorted : list CacheValue) : Result (list CacheValue) :=
  match sorted with
  | [] => Ok [x]
  | y :: rest =>
      c <- compare x y ;;
      if c <=? 0 then Ok (x :: y :: rest)
      else (r <- sort_insert compare x rest ;; Ok (y :: r))
  end.

Fixpoint Array_sort (compare : CacheValue -> CacheValue -> Result Z)
    (l : list CacheValue) : Result (list CacheValue) :=
  match l with
  | [] => Ok []
  | x :: rest => sorted <- Array_sort compare rest ;; sort_insert compare x sorted
  end.

(** The values of the cache entries whose key passes [keep], in iteration
    order: the [for (const [key, value] of this.inMemoryCache.entries())]
    loops that push onto a result list. *)
Definition scan (cache : JsMap.t CacheValue) (keep : string -> CacheValue -> bool)
    : list CacheValue :=
  map snd (filter (fun kv => keep (fst kv) (snd kv)) (JsMap.entries cache)).

(** *** Writes *)

(** The delay that Node's [setTimeout(f, ms)] uses: [1] when [ms] is below
    [1] or above [2^31 - 1]. *)
Definition setTimeout_delay (ms : Z) : Z :=
  if (ms <? 1) || (2147483647 <? ms) then 1 else ms.

(** The state after the write; the in-process branch also sets the timer
    [storeShortTerm_timer], whose callback is [timer_fires]. *)
Definition storeShortTerm (mgr : t) (memory : Memory) : t :=
  let key := memoryKey (m_agentId memory) (m_id memory) in
  let ttl := shortTerm_ttl (config mgr) in
  match redis mgr with
  | Some r =>
      let r := Redis.setex r key ttl (Redis.JSON_stringify memory) in
      let listKey := listKey (m_agentId memory) in
      let r := Redis.lpush r listKey (m_id memory) in
      let r := Redis.ltrim r listKey 0
                 (number_or (shortTerm_maxItems (config mgr)) 100) in
      let r := Redis.expire r listKey ttl in
      mk (config mgr) (Some r) (supabase mgr) (inMemoryCache mgr)
  | None =>
      mk (config mgr) (redis mgr) (supabase mgr)
         (JsMap.set (inMemoryCache mgr) key (VMemory memory))
  end.

(** The timer of the in-process branch, [setTimeout(..., ttl * 1000)]: its
    delay in milliseconds and the key that its callback deletes. *)
Definition storeShortTerm_timer (mgr : t) (memory : Memory) : option (Z * string) :=
  match redis mgr with
  | Some _ => None
  | None =>
      Some (setTimeout_delay (shortTerm_ttl (config mgr) * 1000),
            memoryKey (m_agentId memory) (m_id memory))
  end.

(** The callback of that timer: [this.inMemoryCache.delete(key)]. *)
Definition timer_fires (mgr : t) (key : string) : t :=
  mk (config mgr) (redis mgr) (supabase mgr) (JsMap.delete (inMemoryCache mgr) key).

(** The time a [timestamp] denotes, as the row's [created_at]. *)
Definition instant (tv : TimeValue) : Z :=
  match tv with
  | DateObj ms => ms
  | IsoString ms => ms
  end.

Definition storeLongTerm (mgr : t) (memory : Memory) : t :=
  match supabase mgr with
  | None =>
      let key := longtermKey (m_agentId memory) (m_id memory) in
      mk (config mgr) (redis mgr) (supabase mgr)
         (JsMap.set (inMemoryCache mgr) key (VMemory memory))
  | Some db =>
      let (db', _) :=
        Supabase.insert db
          (Supabase.mkMemoryRow (m_id memory) (m_agentId memory) (m_type memory)
             (m_content memory) (m_confidence memory) (m_embedding memory)
             (m_metadata memory) (instant (m_timestamp memory))) in
      mk (config mgr) (redis mgr) (Some db') (inMemoryCache mgr)
  end.

Definition storeSemanticMemory (mgr : t) (memory : Memory) : t :=
  match m_embedding memory with
  | Some ((_ :: _) as embedding) =>
      let key := semanticKey (m_agentId memory) (m_id memory) in
      mk (config mgr) (redis mgr) (supabase mgr)
         (JsMap.set (inMemoryCache mgr) key
            (VSemantic embedding (m_id memory) (m_type memory) (m_confidence memory)))
  | _ => mgr
  end.

Definition is_some {A : Type} (o : option A) : bool :=
  match o with Some _ => true | None => false end.

Definition remember (mgr : t) (agentId : string) (memory : MemoryInput)
    (env : Reading) : t * string :=
  let fullMemory :=
    mkMemory (generateId (id_clock env) (random36 env)) agentId
             (DateObj (date_clock env)) (in_type memory) (in_content memory)
             (in_confidence memory) (in_embedding memory) (in_metadata memory) in
  let mgr := storeShortTerm mgr fullMemory in
  let mgr := if is_some (longTerm (config mgr)) then storeLongTerm mgr fullMemory
             else mgr in
  let mgr := if is_some (semantic (config mgr)) && is_some (in_embedding memory)
             then storeSemanticMemory mgr fullMemory
             else mgr in
  (mgr, m_id fullMemory).

(** *** Reads *)

Definition queryShortTerm (mgr : t) (agentId : string) (query : Query)
    : list CacheValue :=
  match redis mgr with
  | Some r =>
      let memoryIds :=
        Redis.lrange r (listKey agentId) 0 (number_or (q_limit query) 10) in
      flat_map
        (fun id =>
           match Redis.get r (memoryKey agentId id) with
           | Some data =>
               let memory := VMemory (Redis.JSON_parse data) in
               if matchesQuery memory query then [memory] else []
           | None => []
           end)
        memoryIds
  | None =>
      scan (inMemoryCache mgr)
           (fun key value =>
              Str.startsWith key ("memory:" ++ agentId ++ ":")%string
              && matchesQuery value query)
  end.

(** A row of [agent_memories] as the [Memory] that [queryLongTerm] builds. *)
Definition memory_of_row (row : Supabase.MemoryRow) : CacheValue :=
  VMemory
    (mkMemory (Supabase.row_id row) (Supabase.row_agent_id row)
              (DateObj (Supabase.row_created_at row))
              (Supabase.row_memory_type row) (Supabase.row_content row)
              (Supabase.row_confidence row) (Supabase.row_embedding row)
              (Supabase.row_metadata row)).

Definition queryLongTerm (mgr : t) (agentId : string) (query : Query)
    : list CacheValue :=
  match supabase mgr with
  | None =>
      scan (inMemoryCache mgr)
           (fun key value =>
              Str.startsWith key ("longterm:" ++ agentId ++ ":")%string
              && matchesQuery value query)
  | Some db =>
      match Supabase.select_memories db agentId (q_type query) (q_since query)
              (match q_limit query with
               | Some n => if truthyZ n then Some n else None
               | None => None
               end)
      with
      | Supabase.Data data => map memory_of_row data
      | Supabase.Error => []
      end
  end.

(** [value.metadata.type === 'pattern']; reading [.type] of an [undefined]
    or [null] metadata throws. *)
Definition metadata_type_is_pattern (value : CacheValue) : Result bool :=
  match value with
  | VSemantic _ _ ty _ => Ok (MemoryType_eqb ty Pattern)
  | VMemory m =>
      match m_metadata m with
      | Some (JObj fields) =>
          Ok (match json_get fields "type" with
              | Some (JStr s) => String.eqb s "pattern"
              | _ => false
              end)
      | Some JNull | None =>
          Throw (TypeError "Cannot read properties of undefined (reading 'type')")
      | Some _ => Ok false
      end
  | VPattern _ _ =>
      Throw (TypeError "Cannot read properties of undefined (reading 'type')")
  end.

Fixpoint semantic_loop (entries : list (string * CacheValue)) (prefix : string)
    : Result (list CacheValue) :=
  match entries with
  | [] => Ok []
  | (key, value) :: rest =>
      if Str.startsWith key prefix then
        is_pattern <- metadata_type_is_pattern value ;;
        memories <- semantic_loop rest prefix ;;
        Ok (if is_pattern : bool then value :: memories else memories)
      else semantic_loop rest prefix
  end.

Definition querySemanticMemory (mgr : t) (agentId : string) (query : Query)
    : Result (list CacheValue) :=
  semantic_loop (JsMap.entries (inMemoryCache mgr))
                ("semantic:" ++ agentId ++ ":")%string.

Definition is_pattern_query (query : Query) : bool :=
  match q_type query with
  | Some Pattern => true
  | _ => false
  end.

(** The list that [recall] has pushed together before it removes
    duplicates: short-term, then long-term, then semantic. *)
Definition gathered (mgr : t) (agentId : string) (query : Query)
    : Result (list CacheValue) :=
  let memories := queryShortTerm mgr agentId query in
  let memories :=
    if (Z.of_nat (length memories) <? number_or (q_limit query) 10)
       && is_some (longTerm (config mgr))
    then memories ++ queryLongTerm mgr agentId query
    else memories in
  if is_pattern_query query && is_some (semantic (config mgr)) then
    semanticMemories <- querySemanticMemory mgr agentId query ;;
    Ok (memories ++ semanticMemories)
  else Ok memories.

Definition recall (mgr : t) (agentId : string) (query : Query)
    : Result (list CacheValue) :=
  memories <- gathered mgr agentId query ;;
  let uniqueMemories := deduplicateMemories memories in
  Array_sort byTimestampDesc uniqueMemories.

(** *** Learning *)

Record Outcome : Type := mkOutcome {
  transactionId : string;
  success : bool;
  pattern : option string;
  confidence : Q
}.

(** [new Date()] for the metadata, the readings of [remember], and
    [new Date()] for [last_updated]. *)
Record LearnReading : Type := mkLearnReading {
  metadata_clock : Z;
  remember_reading : Reading;
  update_clock : Z
}.

(** In the in-process branch the value under a pattern key is a pair of
    counters or absent: the four kinds of keys start with different words
    (see [entry_ok] below). *)
Definition updatePattern (mgr : t) (agentId pattern : string) (success : bool)
    (now : Z) : t :=
  let key := patternKey agentId pattern in
  match supabase mgr with
  | Some db =>
      let (db', _) :=
        Supabase.upsert_pattern db agentId pattern 1
          (if success then 1%Q else 0%Q) now in
      mk (config mgr) (redis mgr) (Some db') (inMemoryCache mgr)
  | None =>
      let '(frequency, successes) :=
        match JsMap.get (inMemoryCache mgr) key with
        | Some (VPattern frequency successes) => (frequency, successes)
        | _ => (0, 0)
        end in
      mk (config mgr) (redis mgr) (supabase mgr)
         (JsMap.set (inMemoryCache mgr) key
            (VPattern (frequency + 1)
                      (if success then successes + 1 else successes)))
  end.

Definition learn (mgr : t) (agentId : string) (outcome : Outcome)
    (env : LearnReading) : t :=
  let content :=
    JObj ([("transactionId", JStr (transactionId outcome));
           ("success", JBool (success outcome))]
          ++ match pattern outcome with
             | Some p => [("pattern", JStr p)]
             | None => []
             end) in
  let metadata :=
    JObj [("learned", JBool true); ("timestamp", JDate (metadata_clock env))] in
  let (mgr, _) :=
    remember mgr agentId
      (mkMemoryInput agentId Pattern content (Some (confidence outcome)) None
                     (Some metadata))
      (remember_reading env) in
  match pattern outcome with
  | Some p =>
      if negb (String.eqb p "")
      then updatePattern mgr agentId p (success outcome) (update_clock env)
      else mgr
  | None => mgr
  end.

(** *** Forgetting *)

(** The [.delete()] on [agent_memories]: the new table and [data?.length || 0],
    nothing deleted and [0] on an error. *)
Definition forget_longTerm (db : Supabase.t) (agentId : string)
    (criteria : Criteria) : Supabase.t * Z :=
  match Supabase.delete_memories db agentId (olderThan criteria)
          (c_type criteria) (confidenceLessThan criteria) with
  | (db', Supabase.Data data) => (db', Z.of_nat (length data))
  | (db', Supabase.Error) => (db', 0)
  end.

(** The loop over [inMemoryCache.entries()], starting from the count of the
    long-term pass. *)
Definition forget_inMemory (cache : JsMap.t CacheValue) (agentId : string)
    (criteria : Criteria) (deletedCount : Z) : JsMap.t CacheValue * Z :=
  fold_left
    (fun (acc : JsMap.t CacheValue * Z) (kv : string * CacheValue) =>
       let (cache, deletedCount) := acc in
       if Str.includes (fst kv) agentId && matchesForgetCriteria (snd kv) criteria
       then (JsMap.delete cache (fst kv), deletedCount + 1)
       else (cache, deletedCount))
    (JsMap.entries cache) (cache, deletedCount).

Definition forget (mgr : t) (agentId : string) (criteria : Criteria) : t * Z :=
  let (db, deletedCount) :=
    match supabase mgr with
    | Some db =>
        let (db', n) := forget_longTerm db agentId criteria in (Some db', n)
    | None => (None, 0)
    end in
  let (cache, deletedCount) :=
    forget_inMemory (inMemoryCache mgr) agentId criteria deletedCount in
  (mk (config mgr) (redis mgr) db cache, deletedCount).

(** *** Statistics

    [avgConfidence] is the quotient of the sum by the count; the code
    computes it in double precision, of which this is the exact value. *)

Record Stats : Type := mkStats {
  shortTermCount : Z;
  longTermCount : Z;
  patterns : Z;
  avgConfidence : Q
}.

Definition getStats (mgr : t) (agentId : string) : Stats :=
  let shortTermCount :=
    match redis mgr with
    | Some r => Redis.llen r (listKey agentId)
    | None => 0
    end in
  match supabase mgr with
  | Some db =>
      let longTermCount :=
        match Supabase.count_memories db agentId with
        | Some count => count
        | None => 0
        end in
      match Supabase.select_pattern_confidence db agentId with
      | Supabase.Data ((_ :: _) as data) =>
          mkStats shortTermCount longTermCount (Z.of_nat (length data))
                  (fold_left Qplus data 0%Q / inject_Z (Z.of_nat (length data)))%Q
      | _ => mkStats shortTermCount longTermCount 0 0%Q
      end
  | None => mkStats shortTermCount 0 0 0%Q
  end.

End MemoryManager.

Import MemoryManager.

(** ** Runs

    A run is a freshly constructed manager followed by calls of [remember];
    every call comes with what it reads from the clock and from
    [Math.random]. *)

Record RememberCall : Type := mkCall {
  call_agent : string;
  call_input : MemoryInput;
  call_env : Reading
}.

Definition call_id (c : RememberCall) : string :=
  generateId (id_clock (call_env c)) (random36 (call_env c)).

(** The [fullMemory] that the call builds and stores. *)
Definition call_memory (c : RememberCall) : Memory :=
  mkMemory (call_id c) (call_agent c) (DateObj (date_clock (call_env c)))
           (in_type (call_input c)) (in_content (call_input c))
           (in_confidence (call_input c)) (in_embedding (call_input c))
           (in_metadata (call_input c)).

Definition remember_call (mgr : MemoryManager.t) (c : RememberCall)
    : MemoryManager.t :=
  fst (remember mgr (call_agent c) (call_input c) (call_env c)).

Definition run (mgr : MemoryManager.t) (calls : list RememberCall)
    : MemoryManager.t :=
  fold_left remember_call calls mgr.

(** The states a manager can be in: constructed, then any sequence of the
    state-changing public methods, of expiry timers that fire and of
    connection errors of the Redis client. *)
Inductive Reachable : MemoryManager.t -> Prop :=
| reach_create : forall config server project,
    Reachable (create config server project)
| reach_remember : forall mgr agentId memory env,
    Reachable mgr -> Reachable (fst (remember mgr agentId memory env))
| reach_learn : forall mgr agentId outcome env,
    Reachable mgr -> Reachable (learn mgr agentId outcome env)
| reach_forget : forall mgr agentId criteria,
    Reachable mgr -> Reachable (fst (forget mgr agentId criteria))
| reach_timer : forall mgr agentId id,
    Reachable mgr -> Reachable (timer_fires mgr (memoryKey agentId id))
| reach_redis_error : forall mgr,
    Reachable mgr -> Reachable (on_redis_error mgr).

(** [v.id === id] *)
Definition has_id (id : string) (v : CacheValue) : bool :=
  option_string_eqb (id_of v) (Some id).

(** Newest first: every element has a time and it is not earlier than the
    time of the next element. *)
Fixpoint descending (l : list CacheValue) : Prop :=
  match l with
  | a :: (b :: _) as rest =>
      (exists ta tb, getTime a = Ok ta /\ getTime b = Ok tb /\ tb <= ta)
      /\ descending rest
  | _ => True
  end.

(** The same with every time strictly later than the next one. *)
Fixpoint strictly_descending (l : list CacheValue) : Prop :=
  match l with
  | a :: (b :: _) as rest =>
      (exists ta tb, getTime a = Ok ta /\ getTime b = Ok tb /\ tb < ta)
      /\ strictly_descending rest
  | _ => True
  end.

(** ** Concrete configurations and inputs used below *)
Module Scenario.

(** The configuration of the repository's tests: no Redis, no long-term
    tier, no semantic tier. *)
Definition degraded : MemoryConfig :=
  mkMemoryConfig StMemory 3600 (Some 100) None None.

Definition degraded_semantic : MemoryConfig :=
  mkMemoryConfig StMemory 3600 (Some 100) None
                 (Some (mkSemanticConfig 1536 "agent-memories")).

Definition degraded_longterm : MemoryConfig :=
  mkMemoryConfig StMemory 3600 (Some 100) (Some LtSqlite) None.

Definition with_redis (maxItems : Z) : MemoryConfig :=
  mkMemoryConfig StRedis 3600 (Some maxItems) None None.

Definition with_supabase : MemoryConfig :=
  mkMemoryConfig StMemory 3600 (Some 100) (Some LtSupabase) None.

Definition input (ty : MemoryType) (confidence : Q) : MemoryInput :=
  mkMemoryInput "" ty (JObj [("msg", JStr "hi")]) (Some confidence) None None.

Definition embedded (ty : MemoryType) (confidence : Q) : MemoryInput :=
  mkMemoryInput "" ty (JObj [("msg", JStr "hi")]) (Some confidence)
                (Some [(1 # 10)%Q; (2 # 10)%Q]) None.

(** Readings at clock [now] with the random digits [r]. *)
Definition at_ (now : Z) (r : list N) : Reading := mkReading now r now.

Definition call (agent : string) (ty : MemoryType) (confidence : Q) (now : Z)
    (r : list N) : RememberCall :=
  mkCall agent (input ty confidence) (at_ now r).

Definition greeting (ok : bool) : Outcome :=
  mkOutcome "t1" ok (Some "greeting") (9 # 10)%Q.

Definition learning (now : Z) (r : list N) : LearnReading :=
  mkLearnReading now (at_ now r) now.

End Scenario.

(** ** Vocabulary of the properties and the concrete runs *)

(** A value whose [timestamp] is a [Date]. *)
Definition dated (v : CacheValue) : Prop := exists ms, getTime v = Ok ms.

(** An entry of the cache: a memory carries a [Date] and sits under its
    short-term or long-term key, a semantic record under a semantic key,
    counters under a pattern key. *)
Definition entry_ok (k : string) (v : CacheValue) : Prop :=
  match v with
  | VMemory m =>
      (exists ms, m_timestamp m = DateObj ms)
      /\ (k = memoryKey (m_agentId m) (m_id m)
          \/ k = longtermKey (m_agentId m) (m_id m))
  | VSemantic _ i _ _ => exists a, k = semanticKey a i
  | VPattern _ _ => exists a p, k = patternKey a p
  end.

Definition well_formed (mgr : MemoryManager.t) : Prop :=
  NoDup (JsMap.keys (inMemoryCache mgr))
  /\ forall k v, In (k, v) (inMemoryCache mgr) -> entry_ok k v.

(** The test of the loop body. *)
Definition forgets (agentId : string) (criteria : Criteria)
    (kv : string * CacheValue) : bool :=
  Str.includes (fst kv) agentId && matchesForgetCriteria (snd kv) criteria.

(** Whether the semantic tier is asked: a pattern query with the tier
    configured. *)
Definition asks_semantic (mgr : MemoryManager.t) (query : Query) : bool :=
  is_pattern_query query && is_some (semantic (config mgr)).

(** The long-term part of the gathered list: empty when the short-term
    result suffices or no long-term tier is configured. *)
Definition longTerm_part (mgr : MemoryManager.t) (agentId : string) (query : Query)
    : list CacheValue :=
  if (Z.of_nat (length (queryShortTerm mgr agentId query))
      <? number_or (q_limit query) 10)
     && is_some (longTerm (config mgr))
  then queryLongTerm mgr agentId query
  else [].

Definition write (cache : JsMap.t CacheValue) (kv : string * CacheValue)
    : JsMap.t CacheValue :=
  JsMap.set cache (fst kv) (snd kv).

(** The writes of [remember] after the short-term one: the long-term
    fallback entry and the semantic record, when they are made. *)
Definition later_write (c : RememberCall) (w : string * CacheValue) : Prop :=
  w = (longtermKey (call_agent c) (call_id c), VMemory (call_memory c))
  \/ exists e conf, w = (semanticKey (call_agent c) (call_id c),
                         VSemantic e (call_id c) (in_type (call_input c)) conf).

(** The state of a run after the calls [done]: no Redis client, every stored
    memory is the memory of one of the calls, and the memory of every call is
    under its short-term key. *)
Definition tracks (done : list RememberCall) (mgr : MemoryManager.t) : Prop :=
  redis mgr = None
  /\ well_formed mgr
  /\ (forall k m, In (k, VMemory m) (inMemoryCache mgr) ->
        exists c, In c done /\ m = call_memory c)
  /\ (forall c, In c done ->
        In (memoryKey (call_agent c) (call_id c), VMemory (call_memory c))
           (inMemoryCache mgr)).

(** The criteria of the asymmetry: [{ type: 'decision', confidenceLessThan: 0.5 }]. *)
Definition decision_or_unsure : Criteria :=
  mkCriteria None (Some Decision) (Some (1 # 2)%Q).

(** Closes a goal about a concrete run by evaluation. *)
Ltac evaluate :=
  vm_compute;
  repeat match goal with
         | |- _ /\ _ => split
         | |- NoDup _ => constructor
         | |- ~ _ => intro
         | H : _ \/ _ |- _ => destruct H
         | H : False |- _ => destruct H
         | H : In _ [] |- _ => destruct H
         | H : In _ (_ :: _) |- _ => destruct H
         | H : _ = _ |- _ => discriminate H
         | |- _ = _ => reflexivity
         | |- _ \/ False => left
         | |- In _ _ => now left
         end.

(** One transaction with confidence [0.3], stored for agent ["a"] by a
    manager with the in-process short-term store and a Supabase project. *)
Definition unsure_transaction : RememberCall :=
  Scenario.call "a" Transaction (3 # 10)%Q 1000 [1%N].

Definition stored_in_both : MemoryManager.t :=
  run (create Scenario.with_supabase Redis.empty (Some Supabase.empty))
      [unsure_transaction].

Definition unsure_row : Supabase.MemoryRow :=
  Supabase.mkMemoryRow (call_id unsure_transaction) "a" Transaction
    (in_content (call_input unsure_transaction)) (Some (3 # 10)%Q) None None 1000.

(** Three memories in the tests' configuration. *)
Definition three_calls : list RememberCall :=
  [Scenario.call "a" Transaction 1%Q 1000 [1%N];
   Scenario.call "a" Decision (9 # 10)%Q 1001 [2%N];
   Scenario.call "a" Pattern (85 # 100)%Q 1002 [3%N]].

Definition three_memories : MemoryManager.t :=
  run (create Scenario.degraded Redis.empty None) three_calls.

(** The same three calls on a manager with a Redis client whose index keeps
    [maxItems = 1]. *)
Definition three_on_redis : MemoryManager.t :=
  run (create (Scenario.with_redis 1) Redis.empty None) three_calls.

Definition first_call : RememberCall :=
  Scenario.call "a" Transaction 1%Q 1000 [1%N].

Definition second_call : RememberCall :=
  Scenario.call "a" Decision (9 # 10)%Q 1001 [2%N].

(** Two memories of one agent on a manager with a Redis client whose index
    keeps [maxItems = 100]: both are within its capacity. *)
Definition two_on_redis : MemoryManager.t :=
  run (create (Scenario.with_redis 100) Redis.empty None) [first_call; second_call].

(** No filter and a limit above the number of stored memories. *)
Definition no_filter : Query := mkQuery None (Some 100) None None.

(** A memory as it is read back from its JSON text. *)
Definition read_back (m : Memory) : CacheValue :=
  VMemory (Redis.JSON_parse (Redis.JSON_stringify m)).

(** Two memories stored in the same millisecond. *)
Definition same_millisecond : MemoryManager.t :=
  run (create Scenario.degraded Redis.empty None)
      [Scenario.call "a" Transaction 1%Q 1000 [1%N];
       Scenario.call "a" Decision 1%Q 1000 [2%N]].

(** A Supabase project that already holds a row with the id that the next
    call generates, with another content; the insert of [remember] is then
    refused and the two tiers show the id with different contents. *)
Definition stale_row : Supabase.MemoryRow :=
  Supabase.mkMemoryRow (call_id unsure_transaction) "a" Transaction
    (JObj [("msg", JStr "stale")]) (Some 1%Q) None None 900.

Definition visible_twice : MemoryManager.t :=
  run (create Scenario.with_supabase Redis.empty
              (Some (Supabase.mk [stale_row] [] true)))
      [unsure_transaction].

(** A pattern memory with an embedding, stored by a manager with the
    in-process short-term store and a semantic tier. *)
Definition pattern_with_embedding : MemoryManager.t :=
  fst (remember (create Scenario.degraded_semantic Redis.empty None) "a"
                (Scenario.embedded Pattern (9 # 10)%Q) (Scenario.at_ 1000 [1%N])).

Definition pattern_query : Query := mkQuery (Some Pattern) None None None.

(** Three memories for one agent with [maxItems = 2]. *)
Definition three_over_two : MemoryManager.t :=
  run (create (Scenario.with_redis 2) Redis.empty None) three_calls.

Definition three_over_two_degraded : MemoryManager.t :=
  run (create (mkMemoryConfig StMemory 3600 (Some 2) None None) Redis.empty None)
      three_calls.

(** One memory with confidence [0.3] of the agent ["agent-10"]. *)
Definition one_of_agent_10 : MemoryManager.t :=
  run (create Scenario.degraded Redis.empty None)
      [Scenario.call "agent-10" Transaction (3 # 10)%Q 1000 [1%N]].

Definition unsure : Criteria := mkCriteria None None (Some (1 # 2)%Q).

(** One memory in the tests' configuration. *)
Definition one_memory : MemoryManager.t :=
  run (create Scenario.degraded Redis.empty None)
      [Scenario.call "a" Transaction 1%Q 1000 [1%N]].

(** Two learning events for the signature [greeting], one successful and one
    not, with a Supabase project and without one. *)
Definition learned_twice (config : MemoryConfig) (project : option Supabase.t)
    : MemoryManager.t :=
  learn (learn (create config Redis.empty project) "a"
               (Scenario.greeting true) (Scenario.learning 1000 [1%N]))
        "a" (Scenario.greeting false) (Scenario.learning 2000 [2%N]).

(** The counters under a pattern key, [0] and [0] when there are none. *)
Definition counters (mgr : MemoryManager.t) (agentId p : string) : Z * Z :=
  match JsMap.get (inMemoryCache mgr) (patternKey agentId p) with
  | Some (VPattern frequency successes) => (frequency, successes)
  | _ => (0, 0)
  end.


(** ** Vocabulary of the further properties *)

(** The delay [ttl * 1000] is one that [setTimeout] keeps, so that the
    timer of an entry runs for the configured [ttl]. *)
Definition timer_lasts_ttl (config : MemoryConfig) : Prop :=
  1 <= shortTerm_ttl config * 1000 <= 2147483647.

(** The state after the timers of the keys [fired] have fired, in this
    order. *)
Definition timers_fire (mgr : MemoryManager.t) (fired : list string)
    : MemoryManager.t :=
  fold_left timer_fires fired mgr.

(** Keys of short-term entries, the only keys that a timer deletes. *)
Definition memory_keys (keys : list string) : Prop :=
  Forall (fun k => exists a i, k = memoryKey a i) keys.



(** The [fullMemory] of a call of [remember]. *)
Definition fullMemory (agentId : string) (memory : MemoryInput) (env : Reading)
    : Memory :=
  mkMemory (generateId (id_clock env) (random36 env)) agentId
           (DateObj (date_clock env)) (in_type memory) (in_content memory)
           (in_confidence memory) (in_embedding memory) (in_metadata memory).

(** No memory of the cache has this id. *)
Definition fresh_id (mgr : MemoryManager.t) (id : string) : Prop :=
  forall k m, In (k, VMemory m) (inMemoryCache mgr) -> m_id m <> id.

(** A semantic record of a pattern memory. *)
Definition is_pattern_record (v : CacheValue) : bool :=
  match v with
  | VSemantic _ _ Pattern _ => true
  | _ => false
  end.

(** A value that is not a memory: a semantic record or pattern counters. *)
Definition not_a_memory (v : CacheValue) : Prop :=
  match v with
  | VMemory _ => False
  | _ => True
  end.

(** A manager in the tests' configuration that has learned one greeting. *)
Definition learned_once : MemoryManager.t :=
  learn (create Scenario.degraded Redis.empty None) "a"
        (Scenario.greeting true) (Scenario.learning 1000 [1%N]).

(** The memory input that [learn] hands to [remember]. *)
Definition learned_input (agentId : string) (outcome : Outcome) (env : LearnReading)
    : MemoryInput :=
  mkMemoryInput agentId Pattern
    (JObj ([("transactionId", JStr (transactionId outcome));
            ("success", JBool (success outcome))]
           ++ match pattern outcome with
              | Some p => [("pattern", JStr p)]
              | None => []
              end))
    (Some (confidence outcome)) None
    (Some (JObj [("learned", JBool true); ("timestamp", JDate (metadata_clock env))])).

(** The pattern rows of the Supabase project, none without a client. *)
Definition pattern_rows (mgr : MemoryManager.t) : list Supabase.PatternRow :=
  match supabase mgr with
  | Some db => Supabase.agent_patterns db
  | None => []
  end.


(** ** Strings and keys *)

Lemma prefix_append (p s : string) : String.prefix p (p ++ s)%string = true.
Proof.
  induction p as [|c p IH]; simpl.
  - destruct s; reflexivity.
  - destruct (ascii_dec c c) as [_|ne]; [exact IH | contradiction].
Qed.

Lemma mem_append (c : ascii) (a b : string) :
  Str.mem c (a ++ b)%string = Str.mem c a || Str.mem c b.
Proof.
  induction a as [|d a IH]; simpl; [reflexivity|].
  rewrite IH. apply orb_assoc.
Qed.

Lemma mem_string_of_list (c : ascii) (l : list ascii) :
  Str.mem c (string_of_list_ascii l) = existsb (Ascii.eqb c) l.
Proof.
  induction l as [|d l IH]; simpl; [reflexivity|]. now rewrite IH.
Qed.

(** [a + ":" + id] determines [a] and [id] when no id holds a colon. *)
Lemma colon_split_inj (a a' i i' : string) :
  Str.mem ":" i = false -> Str.mem ":" i' = false ->
  (a ++ ":" ++ i)%string = (a' ++ ":" ++ i')%string -> a = a' /\ i = i'.
Proof.
  revert a'. induction a as [|c a IH]; intros a' Hi Hi' E.
  - destruct a' as [|c' a']; simpl in E.
    + injection E as E. now split.
    + injection E as Ec E. subst i.
      rewrite mem_append in Hi. simpl in Hi.
      rewrite orb_true_r in Hi. discriminate.
  - destruct a' as [|c' a']; simpl in E.
    + injection E as Ec E. subst i'.
      rewrite mem_append in Hi'. simpl in Hi'.
      rewrite orb_true_r in Hi'. discriminate.
    + injection E as Ec E. subst c'.
      destruct (IH a' Hi Hi' E) as [-> ->]. now split.
Qed.

Lemma uint_no_colon (d : Decimal.uint) :
  Str.mem ":" (NilEmpty.string_of_uint d) = false.
Proof. induction d; simpl; auto. Qed.

Lemma decimal_no_colon (n : Z) : Str.mem ":" (decimal n) = false.
Proof.
  unfold decimal, NilZero.string_of_int, NilZero.string_of_uint.
  destruct (Z.to_int n) as [d|d]; destruct d; simpl;
    auto using uint_no_colon.
Qed.

Lemma digit36_no_colon (d : N) : Ascii.eqb ":" (digit36 d) = false.
Proof.
  unfold digit36.
  set (alphabet := list_ascii_of_string "0123456789abcdefghijklmnopqrstuvwxyz").
  assert (A : forall c, In c alphabet -> Ascii.eqb ":" c = false).
  { intros c H. simpl in H.
    repeat (destruct H as [<- | H]; [reflexivity|]). contradiction. }
  destruct (nth_in_or_default (N.to_nat (d mod 36)) alphabet "0"%char) as [H | ->].
  - now apply A.
  - reflexivity.
Qed.

Lemma base36_no_colon (ds : list N) : Str.mem ":" (base36 ds) = false.
Proof.
  unfold base36. rewrite mem_string_of_list.
  induction ds as [|d ds IH]; [reflexivity|].
  cbn [map existsb]. now rewrite digit36_no_colon, IH.
Qed.

Lemma generateId_no_colon (now : Z) (random : list N) :
  Str.mem ":" (generateId now random) = false.
Proof.
  unfold generateId. rewrite !mem_append.
  rewrite decimal_no_colon, base36_no_colon. reflexivity.
Qed.

Lemma append_cancel_l (p x y : string) :
  (p ++ x)%string = (p ++ y)%string -> x = y.
Proof.
  induction p as [|c p IH]; simpl; intros E; [exact E|].
  injection E as E. auto.
Qed.

Lemma memoryKey_inj (a a' : string) (c c' : RememberCall) :
  memoryKey a (call_id c) = memoryKey a' (call_id c') ->
  a = a' /\ call_id c = call_id c'.
Proof.
  unfold memoryKey. intros E. apply append_cancel_l in E.
  apply colon_split_inj in E; [exact E | |]; apply generateId_no_colon.
Qed.

Lemma append_assoc (a b c : string) :
  ((a ++ b) ++ c)%string = (a ++ b ++ c)%string.
Proof. induction a as [|ch a IH]; simpl; [reflexivity | now rewrite IH]. Qed.

Lemma memoryKey_startsWith (a i : string) :
  Str.startsWith (memoryKey a i) ("memory:" ++ a ++ ":")%string = true.
Proof.
  unfold Str.startsWith, memoryKey.
  replace ("memory:" ++ a ++ ":" ++ i)%string
    with (("memory:" ++ a ++ ":") ++ i)%string.
  - apply prefix_append.
  - now rewrite !append_assoc.
Qed.

(** ** The [Map] operations *)
Section MapFacts.

Variable V : Type.
Implicit Types (m : JsMap.t V) (k : string) (v : V).

Lemma set_In_same m k v : In (k, v) (JsMap.set m k v).
Proof.
  induction m as [|[k' v'] m IH]; simpl; [now left|].
  destruct (String.eqb k' k); simpl; auto.
Qed.

Lemma set_In_other m k v k' v' :
  k' <> k -> In (k', v') m -> In (k', v') (JsMap.set m k v).
Proof.
  intros ne. induction m as [|[k0 v0] m IH]; simpl; [tauto|].
  intros [E|H].
  - injection E as -> ->. apply String.eqb_neq in ne. rewrite ne. now left.
  - destruct (String.eqb k0 k); simpl; auto.
Qed.

Lemma set_In_inv m k v k' v' :
  In (k', v') (JsMap.set m k v) -> (k' = k /\ v' = v) \/ In (k', v') m.
Proof.
  induction m as [|[k0 v0] m IH]; simpl.
  - intros [E|[]]. injection E as <- <-. now left.
  - destruct (String.eqb k0 k); simpl.
    + intros [E|H]; [injection E as <- <-; now left | now right; right].
    + intros [E|H]; [now right; left|]. destruct (IH H); auto.
Qed.

Lemma delete_In m k kv : In kv (JsMap.delete m k) -> In kv m.
Proof.
  induction m as [|[k0 v0] m IH]; simpl; [tauto|].
  destruct (String.eqb k0 k); simpl; [auto|]. intros [E|H]; auto.
Qed.

Lemma set_keys_In m k v k' :
  In k' (JsMap.keys (JsMap.set m k v)) <-> k' = k \/ In k' (JsMap.keys m).
Proof.
  unfold JsMap.keys. induction m as [|[k0 v0] m IH]; simpl.
  - intuition.
  - destruct (String.eqb_spec k0 k) as [->|ne]; simpl; intuition.
Qed.

Lemma set_keys_NoDup m k v :
  NoDup (JsMap.keys m) -> NoDup (JsMap.keys (JsMap.set m k v)).
Proof.
  unfold JsMap.keys. induction m as [|[k0 v0] m IH]; simpl; intros nd.
  - constructor; [tauto | constructor].
  - inversion nd as [|? ? notin nd']; subst.
    destruct (String.eqb_spec k0 k) as [->|ne]; simpl.
    + now constructor.
    + constructor; [|now apply IH].
      intros H. apply (set_keys_In m k v k0) in H. destruct H; [auto|].
      now apply notin.
Qed.

Lemma delete_keys_In m k k' :
  In k' (JsMap.keys (JsMap.delete m k)) -> In k' (JsMap.keys m).
Proof.
  unfold JsMap.keys. induction m as [|[k0 v0] m IH]; simpl; [tauto|].
  destruct (String.eqb k0 k); simpl; [auto|]. intros [E|H]; auto.
Qed.

Lemma delete_keys_NoDup m k :
  NoDup (JsMap.keys m) -> NoDup (JsMap.keys (JsMap.delete m k)).
Proof.
  unfold JsMap.keys. induction m as [|[k0 v0] m IH]; simpl; intros nd; [exact nd|].
  inversion nd as [|? ? notin nd']; subst.
  destruct (String.eqb k0 k); [exact nd'|]. simpl.
  constructor; [|now apply IH].
  intros H. apply notin. now apply (delete_keys_In m k).
Qed.

(** Deleting a key that sits after a block without it removes that entry. *)
Lemma delete_middle (front back : JsMap.t V) k v :
  ~ In k (JsMap.keys front) ->
  JsMap.delete (front ++ (k, v) :: back) k = front ++ back.
Proof.
  unfold JsMap.keys. induction front as [|[k0 v0] front IH]; simpl; intros notin.
  - now rewrite String.eqb_refl.
  - destruct (String.eqb_spec k0 k) as [->|ne]; [tauto|].
    rewrite IH; tauto.
Qed.

Lemma delete_In_other m k k' v' :
  k' <> k -> In (k', v') m -> In (k', v') (JsMap.delete m k).
Proof.
  intros ne. induction m as [|[k0 v0] m IH]; simpl; [tauto|].
  intros [E|H].
  - injection E as -> ->. apply String.eqb_neq in ne. rewrite ne. now left.
  - destruct (String.eqb k0 k); simpl; auto.
Qed.

Lemma get_delete_other m k k' :
  k' <> k -> JsMap.get (JsMap.delete m k) k' = JsMap.get m k'.
Proof.
  intros ne. induction m as [|[k0 v0] m IH]; simpl; [reflexivity|].
  destruct (String.eqb_spec k0 k) as [->|ne0]; simpl.
  - apply not_eq_sym, String.eqb_neq in ne. now rewrite ne.
  - now rewrite IH.
Qed.

(** A write and the deletion of another key can be done in either order. *)
Lemma delete_set_other m k v k' :
  k' <> k -> JsMap.delete (JsMap.set m k v) k' = JsMap.set (JsMap.delete m k') k v.
Proof.
  intros ne. induction m as [|[k0 v0] m IH]; simpl.
  - apply not_eq_sym, String.eqb_neq in ne. now rewrite ne.
  - destruct (String.eqb_spec k0 k) as [->|ne0]; simpl.
    + apply not_eq_sym, String.eqb_neq in ne. rewrite ne. simpl.
      now rewrite String.eqb_refl.
    + destruct (String.eqb_spec k0 k') as [->|ne1]; simpl; [reflexivity|].
      apply String.eqb_neq in ne0. now rewrite ne0, IH.
Qed.

End MapFacts.

(** ** Removing duplicates *)

Lemma option_string_eqb_eq (a b : option string) :
  option_string_eqb a b = true <-> a = b.
Proof.
  destruct a as [x|], b as [y|]; simpl; try (split; congruence).
  rewrite String.eqb_eq. split; congruence.
Qed.

Lemma option_string_eqb_refl (a : option string) : option_string_eqb a a = true.
Proof. now apply option_string_eqb_eq. Qed.

Lemma dedup_from_In (seen : list (option string)) (l : list CacheValue) (v : CacheValue) :
  In v (dedup_from seen l) -> In v l.
Proof.
  revert seen. induction l as [|x l IH]; simpl; intros seen; [tauto|].
  destruct (seen_has seen (id_of x)); simpl; [eauto|].
  intros [E|H]; eauto.
Qed.

(** What is left of one id after [dedup_from]: nothing when the id was seen
    before, otherwise the first element that carries it. *)
Lemma dedup_from_filter (i : string) (seen : list (option string))
    (l : list CacheValue) :
  filter (has_id i) (dedup_from seen l)
  = if seen_has seen (Some i) then []
    else match find (has_id i) l with
         | Some v => [v]
         | None => []
         end.
Proof.
  revert seen. induction l as [|x l IH]; intros seen; simpl.
  - now destruct (seen_has seen (Some i)).
  - destruct (has_id i x) eqn:E.
    + assert (Ex : id_of x = Some i) by now apply option_string_eqb_eq.
      rewrite Ex. destruct (seen_has seen (Some i)) eqn:Sx.
      * rewrite IH. now rewrite Sx.
      * simpl. rewrite E, IH. simpl.
        now rewrite String.eqb_refl.
    + destruct (seen_has seen (id_of x)) eqn:Sx.
      * now rewrite IH.
      * simpl. rewrite E, IH. unfold seen_has. cbn [existsb].
        replace (option_string_eqb (Some i) (id_of x)) with false; [reflexivity|].
        symmetry. apply not_true_is_false. intros T.
        apply option_string_eqb_eq in T. unfold has_id in E.
        rewrite <- T in E. now rewrite option_string_eqb_refl in E.
Qed.

Lemma deduplicate_filter (i : string) (l : list CacheValue) :
  filter (has_id i) (deduplicateMemories l)
  = match find (has_id i) l with
    | Some v => [v]
    | None => []
    end.
Proof. unfold deduplicateMemories. now rewrite dedup_from_filter. Qed.

(** ** Sorting by timestamp *)

Lemma byTimestampDesc_Ok (a b : CacheValue) (c : Z) :
  byTimestampDesc a b = Ok c ->
  exists ta tb, getTime a = Ok ta /\ getTime b = Ok tb /\ c = tb - ta.
Proof.
  unfold byTimestampDesc, bind.
  destruct (getTime b) as [tb|]; [|discriminate].
  destruct (getTime a) as [ta|]; [|discriminate].
  intros E. injection E as <-. now exists ta, tb.
Qed.

Lemma byTimestampDesc_dated (a b : CacheValue) :
  dated a -> dated b -> exists c, byTimestampDesc a b = Ok c.
Proof.
  intros [ta Ha] [tb Hb]. unfold byTimestampDesc, bind.
  rewrite Hb, Ha. eauto.
Qed.

Section SortFacts.

Variable compare : CacheValue -> CacheValue -> Result Z.

Lemma sort_insert_perm (x : CacheValue) (l r : list CacheValue) :
  sort_insert compare x l = Ok r -> Permutation (x :: l) r.
Proof.
  revert r. induction l as [|y l IH]; simpl; intros r E.
  - injection E as <-. apply Permutation_refl.
  - unfold bind in E. destruct (compare x y) as [c|]; [|discriminate].
    destruct (c <=? 0).
    + injection E as <-. apply Permutation_refl.
    + destruct (sort_insert compare x l) as [r'|]; [|discriminate].
      injection E as <-.
      apply perm_trans with (y :: x :: l); [apply perm_swap|].
      apply perm_skip. now apply IH.
Qed.

Lemma Array_sort_perm (l out : list CacheValue) :
  Array_sort compare l = Ok out -> Permutation l out.
Proof.
  revert out. induction l as [|x l IH]; simpl; intros out E.
  - injection E as <-. apply perm_nil.
  - unfold bind in E. destruct (Array_sort compare l) as [s|]; [|discriminate].
    apply perm_trans with (x :: s); [apply perm_skip; now apply IH|].
    now apply sort_insert_perm.
Qed.

(** The result of an insertion starts with the new element or with the old
    first element. *)
Lemma sort_insert_head (x : CacheValue) (l r : list CacheValue) :
  sort_insert compare x l = Ok r ->
  exists t, r = x :: t \/ exists l', l = hd x r :: l' /\ r = hd x r :: t.
Proof.
  destruct l as [|y l]; simpl; intros E.
  - injection E as <-. exists []. now left.
  - unfold bind in E. destruct (compare x y) as [c|]; [|discriminate].
    destruct (c <=? 0).
    + injection E as <-. exists (y :: l). now left.
    + destruct (sort_insert compare x l) as [r'|]; [|discriminate].
      injection E as <-. exists r'. right. exists l. now split.
Qed.

End SortFacts.

Lemma sort_insert_descending (x : CacheValue) (l r : list CacheValue) :
  sort_insert byTimestampDesc x l = Ok r -> descending l -> descending r.
Proof.
  revert r. induction l as [|y l IH]; intros r E D.
  - simpl in E. injection E as <-. exact I.
  - simpl in E. unfold bind in E.
    destruct (byTimestampDesc x y) as [c|] eqn:C; [|discriminate].
    apply byTimestampDesc_Ok in C. destruct C as (tx & ty & Hx & Hy & ->).
    destruct (ty - tx <=? 0) eqn:Le.
    + injection E as <-. split; [|exact D].
      exists tx, ty. repeat split; auto. lia.
    + destruct (sort_insert byTimestampDesc x l) as [r'|] eqn:S; [|discriminate].
      injection E as <-.
      assert (D' : descending r').
      { apply IH; [reflexivity|]. destruct l; [exact I | apply D]. }
      destruct (sort_insert_head _ _ _ S) as [t [->|(l' & -> & E')]].
      * split; [|exact D']. exists ty, tx. repeat split; auto. lia.
      * rewrite E' in D' |- *. split; [|exact D']. apply D.
Qed.

Lemma Array_sort_descending (l out : list CacheValue) :
  Array_sort byTimestampDesc l = Ok out -> descending out.
Proof.
  revert out. induction l as [|x l IH]; simpl; intros out E.
  - injection E as <-. exact I.
  - unfold bind in E.
    destruct (Array_sort byTimestampDesc l) as [s|]; [|discriminate].
    eapply sort_insert_descending; eauto.
Qed.

Lemma sort_insert_total (x : CacheValue) (l : list CacheValue) :
  dated x -> Forall dated l -> exists r, sort_insert byTimestampDesc x l = Ok r.
Proof.
  intros Hx. induction 1 as [|y l Hy Hl IH]; simpl; [eauto|].
  destruct (byTimestampDesc_dated Hx Hy) as [c ->]. simpl.
  destruct (c <=? 0); [eauto|]. destruct IH as [r ->]. simpl. eauto.
Qed.

Lemma Array_sort_total (l : list CacheValue) :
  Forall dated l -> exists out, Array_sort byTimestampDesc l = Ok out.
Proof.
  induction 1 as [|x l Hx Hl IH]; simpl; [eauto|].
  destruct IH as [s E]. rewrite E. simpl.
  apply sort_insert_total; [exact Hx|].
  apply Array_sort_perm in E.
  eapply Permutation_Forall; eauto.
Qed.

(** ** What every reachable cache looks like *)

Lemma set_well_formed (mgr : MemoryManager.t) (k : string) (v : CacheValue) :
  well_formed mgr -> entry_ok k v ->
  well_formed (mk (config mgr) (redis mgr) (supabase mgr)
                  (JsMap.set (inMemoryCache mgr) k v)).
Proof.
  intros [nd ok] okv. split; simpl.
  - now apply set_keys_NoDup.
  - intros k' v' H. apply set_In_inv in H. destruct H as [[-> ->]|H]; auto.
Qed.

Lemma storeShortTerm_well_formed (mgr : MemoryManager.t) (m : Memory) :
  well_formed mgr -> (exists ms, m_timestamp m = DateObj ms) ->
  well_formed (storeShortTerm mgr m).
Proof.
  intros wf dm. unfold storeShortTerm. destruct (redis mgr) eqn:R.
  - exact wf.
  - rewrite <- R. apply set_well_formed; [exact wf|]. simpl. auto.
Qed.

Lemma storeLongTerm_well_formed (mgr : MemoryManager.t) (m : Memory) :
  well_formed mgr -> (exists ms, m_timestamp m = DateObj ms) ->
  well_formed (storeLongTerm mgr m).
Proof.
  intros wf dm. unfold storeLongTerm. destruct (supabase mgr) eqn:S.
  - destruct (Supabase.insert _ _). exact wf.
  - rewrite <- S. apply set_well_formed; [exact wf|]. simpl. auto.
Qed.

Lemma storeSemanticMemory_well_formed (mgr : MemoryManager.t) (m : Memory) :
  well_formed mgr -> well_formed (storeSemanticMemory mgr m).
Proof.
  intros wf. unfold storeSemanticMemory.
  destruct (m_embedding m) as [[|q e]|]; try exact wf.
  apply set_well_formed; [exact wf|]. simpl. eauto.
Qed.

Lemma remember_well_formed (mgr : MemoryManager.t) (agentId : string)
    (memory : MemoryInput) (env : Reading) :
  well_formed mgr -> well_formed (fst (remember mgr agentId memory env)).
Proof.
  intros wf. unfold remember. cbn [fst].
  set (full := mkMemory _ _ _ _ _ _ _ _).
  assert (dm : exists ms, m_timestamp full = DateObj ms) by (simpl; eauto).
  match goal with
  | |- well_formed (if ?b then storeSemanticMemory ?m _ else _) =>
      assert (W : well_formed m); [|destruct b; auto using storeSemanticMemory_well_formed]
  end.
  match goal with
  | |- well_formed (if ?b then _ else _) => destruct b
  end; auto using storeShortTerm_well_formed, storeLongTerm_well_formed.
Qed.

Lemma updatePattern_well_formed (mgr : MemoryManager.t) (agentId p : string)
    (ok : bool) (now : Z) :
  well_formed mgr -> well_formed (updatePattern mgr agentId p ok now).
Proof.
  intros wf. unfold updatePattern. destruct (supabase mgr) eqn:S.
  - destruct (Supabase.upsert_pattern _ _ _ _ _ _). exact wf.
  - destruct (match JsMap.get _ _ with Some (VPattern f s) => (f, s) | _ => (0, 0) end).
    rewrite <- S. apply set_well_formed; [exact wf|]. simpl. eauto.
Qed.

Lemma learn_well_formed (mgr : MemoryManager.t) (agentId : string)
    (outcome : Outcome) (env : LearnReading) :
  well_formed mgr -> well_formed (learn mgr agentId outcome env).
Proof.
  intros wf. unfold learn.
  match goal with
  | |- context [remember ?m ?a ?i ?e] =>
      pose proof (remember_well_formed a i e wf) as W;
      destruct (remember m a i e) as [mgr' id']
  end.
  cbn [fst] in W. destruct (pattern outcome) as [p|]; [|exact W].
  destruct (negb _); auto using updatePattern_well_formed.
Qed.

(** *** The in-process pass of [forget] *)

Lemma forget_loop (agentId : string) (criteria : Criteria)
    (todo front : JsMap.t CacheValue) (n : Z) :
  NoDup (JsMap.keys (front ++ todo)) ->
  fold_left
    (fun (acc : JsMap.t CacheValue * Z) (kv : string * CacheValue) =>
       let (cache, deletedCount) := acc in
       if Str.includes (fst kv) agentId && matchesForgetCriteria (snd kv) criteria
       then (JsMap.delete cache (fst kv), deletedCount + 1)
       else (cache, deletedCount))
    todo (front ++ todo, n)
  = (front ++ filter (fun kv => negb (forgets agentId criteria kv)) todo,
     n + Z.of_nat (length (filter (forgets agentId criteria) todo))).
Proof.
  revert front n. induction todo as [|[k v] todo IH]; intros front n nd.
  - simpl. f_equal. lia.
  - cbn [fold_left filter fst snd].
    assert (P : forgets agentId criteria (k, v)
                = (Str.includes k agentId && matchesForgetCriteria v criteria))
      by reflexivity.
    destruct (forgets agentId criteria (k, v)); rewrite <- P; cbn [negb].
    + unfold JsMap.keys in nd. rewrite map_app in nd. simpl in nd.
      rewrite delete_middle.
      * rewrite IH.
        -- f_equal. cbn [length]. lia.
        -- unfold JsMap.keys. rewrite map_app. eapply NoDup_remove_1; eauto.
      * unfold JsMap.keys. apply NoDup_remove_2 in nd.
        intros H. apply nd, in_or_app. now left.
    + replace (front ++ (k, v) :: todo) with ((front ++ [(k, v)]) ++ todo)
        by now rewrite <- app_assoc.
      rewrite IH.
      * now rewrite <- app_assoc.
      * now rewrite <- app_assoc.
Qed.

(** With the keys of a [Map], the loop removes exactly the entries that pass
    its test and counts them. *)
Lemma forget_inMemory_spec (cache : JsMap.t CacheValue) (agentId : string)
    (criteria : Criteria) (n : Z) :
  NoDup (JsMap.keys cache) ->
  forget_inMemory cache agentId criteria n
  = (filter (fun kv => negb (forgets agentId criteria kv)) cache,
     n + Z.of_nat (length (filter (forgets agentId criteria) cache))).
Proof.
  intros nd. unfold forget_inMemory, JsMap.entries.
  exact (forget_loop agentId criteria cache [] n nd).
Qed.

Lemma filter_keys_NoDup (V : Type) (q : string * V -> bool) (m : JsMap.t V) :
  NoDup (JsMap.keys m) -> NoDup (JsMap.keys (filter q m)).
Proof.
  unfold JsMap.keys. induction m as [|kv m IH]; simpl; intros nd; [exact nd|].
  inversion nd as [|? ? notin nd']; subst.
  destruct (q kv); simpl; [|auto]. constructor; [|auto].
  intros H. apply notin. apply in_map_iff in H. destruct H as (x & E & H).
  apply filter_In in H. apply in_map_iff. exists x. tauto.
Qed.

Lemma forget_well_formed (mgr : MemoryManager.t) (agentId : string)
    (criteria : Criteria) :
  well_formed mgr -> well_formed (fst (forget mgr agentId criteria)).
Proof.
  intros [nd ok]. unfold forget.
  destruct (match supabase mgr with
            | Some db => let (db', n) := forget_longTerm db agentId criteria in
                         (Some db', n)
            | None => (None, 0)
            end) as [db n].
  rewrite forget_inMemory_spec by exact nd. cbn [fst]. split; simpl.
  - now apply filter_keys_NoDup.
  - intros k v H. apply filter_In in H. apply ok. tauto.
Qed.

Lemma timer_fires_well_formed (mgr : MemoryManager.t) (key : string) :
  well_formed mgr -> well_formed (timer_fires mgr key).
Proof.
  intros [nd ok]. split; simpl.
  - now apply delete_keys_NoDup.
  - intros k v H. apply ok. now apply (delete_In (inMemoryCache mgr) key).
Qed.

Lemma reachable_well_formed (mgr : MemoryManager.t) :
  Reachable mgr -> well_formed mgr.
Proof.
  induction 1.
  - split; simpl; [constructor | tauto].
  - now apply remember_well_formed.
  - now apply learn_well_formed.
  - now apply forget_well_formed.
  - now apply timer_fires_well_formed.
  - exact IHReachable.
Qed.

(** ** What the tiers hand to [recall] *)

Lemma scan_In (cache : JsMap.t CacheValue) (keep : string -> CacheValue -> bool)
    (v : CacheValue) :
  In v (scan cache keep) <-> exists k, In (k, v) cache /\ keep k v = true.
Proof.
  unfold scan, JsMap.entries. rewrite in_map_iff. split.
  - intros ([k v'] & E & H). simpl in E. subst v'.
    apply filter_In in H. exists k. tauto.
  - intros (k & H & K). exists (k, v). split; [reflexivity|].
    apply filter_In. tauto.
Qed.

Lemma memory_key_holds_memory (k x : string) (v : CacheValue) :
  entry_ok k v -> Str.startsWith k ("memory:" ++ x)%string = true ->
  exists m, v = VMemory m /\ dated v.
Proof.
  destruct v as [m|e i ty c|f s]; simpl.
  - intros [[ms E] _] _. exists m. split; [reflexivity|].
    exists ms. unfold getTime. simpl. now rewrite E.
  - intros [a ->]. discriminate.
  - intros (a & p & ->). discriminate.
Qed.

Lemma longterm_key_holds_memory (k x : string) (v : CacheValue) :
  entry_ok k v -> Str.startsWith k ("longterm:" ++ x)%string = true ->
  exists m, v = VMemory m /\ dated v.
Proof.
  destruct v as [m|e i ty c|f s]; simpl.
  - intros [[ms E] _] _. exists m. split; [reflexivity|].
    exists ms. unfold getTime. simpl. now rewrite E.
  - intros [a ->]. discriminate.
  - intros (a & p & ->). discriminate.
Qed.

Lemma queryShortTerm_dated (mgr : MemoryManager.t) (agentId : string) (query : Query) :
  well_formed mgr -> redis mgr = None ->
  Forall dated (queryShortTerm mgr agentId query).
Proof.
  intros [_ ok] R. unfold queryShortTerm. rewrite R.
  apply Forall_forall. intros v H. apply scan_In in H.
  destruct H as (k & H & K). apply andb_prop in K. destruct K as [K _].
  destruct (@memory_key_holds_memory _ _ _ (ok _ _ H) K) as (m & _ & D). exact D.
Qed.

Lemma queryLongTerm_dated (mgr : MemoryManager.t) (agentId : string) (query : Query) :
  well_formed mgr -> Forall dated (queryLongTerm mgr agentId query).
Proof.
  intros [_ ok]. unfold queryLongTerm. destruct (supabase mgr) as [db|].
  - destruct (Supabase.select_memories _ _ _ _ _) as [rows|]; [|constructor].
    apply Forall_forall. intros v H. apply in_map_iff in H.
    destruct H as (row & <- & _). now exists (Supabase.row_created_at row).
  - apply Forall_forall. intros v H. apply scan_In in H.
    destruct H as (k & H & K). apply andb_prop in K. destruct K as [K _].
    destruct (@longterm_key_holds_memory _ _ _ (ok _ _ H) K) as (m & _ & D). exact D.
Qed.

Lemma gathered_without_semantic (mgr : MemoryManager.t) (agentId : string)
    (query : Query) :
  asks_semantic mgr query = false ->
  gathered mgr agentId query
  = Ok (queryShortTerm mgr agentId query ++ longTerm_part mgr agentId query).
Proof.
  unfold asks_semantic, gathered, longTerm_part. intros ->.
  destruct (_ && _); [reflexivity | now rewrite app_nil_r].
Qed.

Lemma gathered_tiers (mgr : MemoryManager.t) (agentId : string) (query : Query)
    (memories : list CacheValue) :
  gathered mgr agentId query = Ok memories ->
  exists sem,
    memories = queryShortTerm mgr agentId query
                 ++ longTerm_part mgr agentId query ++ sem
    /\ (sem = []
        \/ (asks_semantic mgr query = true
            /\ querySemanticMemory mgr agentId query = Ok sem)).
Proof.
  unfold gathered, longTerm_part, asks_semantic.
  set (short := queryShortTerm mgr agentId query).
  set (long := if _ && is_some (longTerm (config mgr)) then _ else []).
  replace (if (Z.of_nat (length short) <? number_or (q_limit query) 10)
              && is_some (longTerm (config mgr))
           then short ++ queryLongTerm mgr agentId query else short)
    with (short ++ long).
  - destruct (is_pattern_query query && is_some (semantic (config mgr))).
    + unfold bind. destruct (querySemanticMemory mgr agentId query) as [sem|];
        [|discriminate].
      intros E. injection E as <-. exists sem. rewrite app_assoc. auto.
    + intros E. injection E as <-. exists []. rewrite app_nil_r. auto.
  - unfold long. destruct (_ && _); [reflexivity | now rewrite app_nil_r].
Qed.

(** In a reachable manager without a Redis client, a query that does not
    reach the semantic tier is answered. *)
Lemma recall_returns (mgr : MemoryManager.t) (agentId : string) (query : Query) :
  well_formed mgr -> redis mgr = None -> asks_semantic mgr query = false ->
  exists out, recall mgr agentId query = Ok out.
Proof.
  intros wf R S. unfold recall. rewrite gathered_without_semantic by exact S.
  cbn [bind]. apply Array_sort_total.
  apply Forall_forall. intros v H. apply dedup_from_In in H.
  apply in_app_or in H.
  assert (DS := queryShortTerm_dated agentId query wf R).
  assert (DL := queryLongTerm_dated agentId query wf).
  rewrite Forall_forall in DS, DL. destruct H as [H|H]; [auto|].
  unfold longTerm_part in H. destruct (_ && _); [auto | contradiction].
Qed.

(** ** Lists *)

Lemma filter_Permutation (A : Type) (f : A -> bool) (l l' : list A) :
  Permutation l l' -> Permutation (filter f l) (filter f l').
Proof.
  induction 1 as [|x l l' _ IH|x y l|l l' l'' _ IH1 _ IH2]; simpl.
  - apply perm_nil.
  - destruct (f x); [now apply perm_skip | exact IH].
  - destruct (f x), (f y); try apply Permutation_refl. apply perm_swap.
  - now apply perm_trans with (filter f l').
Qed.

Lemma find_append (A : Type) (f : A -> bool) (l l' : list A) :
  find f (l ++ l')
  = match find f l with
    | Some x => Some x
    | None => find f l'
    end.
Proof.
  induction l as [|x l IH]; simpl; [reflexivity|]. now destruct (f x).
Qed.

Lemma find_exists (A : Type) (f : A -> bool) (l : list A) (x : A) :
  In x l -> f x = true -> exists y, find f l = Some y.
Proof.
  intros H F. destruct (find f l) as [y|] eqn:E; [eauto|].
  rewrite (find_none _ _ E _ H) in F. discriminate.
Qed.

Lemma NoDup_map_In_inj (A B : Type) (f : A -> B) (l : list A) (x y : A) :
  NoDup (map f l) -> In x l -> In y l -> f x = f y -> x = y.
Proof.
  induction l as [|a l IH]; simpl; intros nd Hx Hy E; [contradiction|].
  inversion nd as [|? ? notin nd']; subst.
  destruct Hx as [->|Hx], Hy as [->|Hy]; auto.
  - exfalso. apply notin. rewrite E. now apply in_map.
  - exfalso. apply notin. rewrite <- E. now apply in_map.
Qed.

(** ** [recall]: one entry per id, first tier first *)

(** After the sort, the entries of one id are the entry that
    [deduplicateMemories] kept: the first one of the gathered list. *)
Lemma recall_filter (mgr : MemoryManager.t) (agentId : string) (query : Query)
    (memories out : list CacheValue) (i : string) :
  gathered mgr agentId query = Ok memories ->
  recall mgr agentId query = Ok out ->
  filter (has_id i) out
  = match find (has_id i) memories with
    | Some v => [v]
    | None => []
    end.
Proof.
  unfold recall. intros -> E. cbn [bind] in E.
  apply Array_sort_perm in E.
  apply (filter_Permutation (has_id i)) in E.
  rewrite deduplicate_filter in E.
  destruct (find (has_id i) memories) as [v|].
  - now apply Permutation_length_1_inv in E.
  - now apply Permutation_nil in E.
Qed.

Lemma recall_gathered (mgr : MemoryManager.t) (agentId : string) (query : Query)
    (out : list CacheValue) :
  recall mgr agentId query = Ok out ->
  exists memories, gathered mgr agentId query = Ok memories.
Proof.
  unfold recall, bind. destruct (gathered mgr agentId query); [eauto | discriminate].
Qed.

(** C5. Whatever list [recall] returns, for every id it holds the entries
    of that id exactly as follows: none if no tier showed the id, otherwise
    exactly one, the first with that id in the order short-term, long-term,
    semantic. And [recall] does return a list in every reachable manager
    that has no Redis client, for every query that does not reach the
    semantic tier. *)
Theorem recall_keeps_first_of_each_id (mgr : MemoryManager.t) (agentId : string)
    (query : Query) :
  (forall out, recall mgr agentId query = Ok out ->
     exists sem,
       (sem = [] \/ (asks_semantic mgr query = true
                     /\ querySemanticMemory mgr agentId query = Ok sem))
       /\ forall i,
            filter (has_id i) out
            = match find (has_id i)
                         (queryShortTerm mgr agentId query
                          ++ longTerm_part mgr agentId query ++ sem) with
              | Some v => [v]
              | None => []
              end)
  /\ (Reachable mgr -> redis mgr = None -> asks_semantic mgr query = false ->
      exists out, recall mgr agentId query = Ok out).
Proof.
  split.
  - intros out E. destruct (recall_gathered _ _ _ E) as [memories G].
    destruct (gathered_tiers _ _ _ G) as (sem & -> & S).
    exists sem. split; [exact S|]. intros i.
    exact (recall_filter _ _ _ i G E).
  - intros R. apply recall_returns. now apply reachable_well_formed.
Qed.

(** ** [recall]: newest first *)

(** C6 (amended). Whatever list [recall] returns is ordered by timestamp,
    newest first, equal timestamps allowed: every element's time is later
    than or equal to the time of the next element. And [recall] does return
    a list in every reachable manager that has no Redis client, for every
    query that does not reach the semantic tier. *)
Theorem recall_sorted_newest_first (mgr : MemoryManager.t) (agentId : string)
    (query : Query) :
  (forall out, recall mgr agentId query = Ok out -> descending out)
  /\ (Reachable mgr -> redis mgr = None -> asks_semantic mgr query = false ->
      exists out, recall mgr agentId query = Ok out).
Proof.
  split.
  - unfold recall, bind. intros out.
    destruct (gathered mgr agentId query) as [memories|]; [|discriminate].
    apply Array_sort_descending.
  - intros R. apply recall_returns. now apply reachable_well_formed.
Qed.

(** ** Runs of [remember] without a Redis client *)

Lemma writes_In_inv (ws : list (string * CacheValue)) (cache : JsMap.t CacheValue)
    (kv : string * CacheValue) :
  In kv (fold_left write ws cache) -> In kv cache \/ In kv ws.
Proof.
  revert cache. induction ws as [|w ws IH]; simpl; intros cache H; [auto|].
  apply IH in H. destruct H as [H|H]; [|auto].
  destruct kv as [k v]. apply set_In_inv in H.
  destruct H as [[-> ->]|H]; [right; left; now destruct w | auto].
Qed.

Lemma writes_In_keep (ws : list (string * CacheValue)) (cache : JsMap.t CacheValue)
    (k : string) (v : CacheValue) :
  In (k, v) cache -> (forall w, In w ws -> fst w <> k) ->
  In (k, v) (fold_left write ws cache).
Proof.
  revert cache. induction ws as [|w ws IH]; simpl; intros cache H ne; [exact H|].
  apply IH; [|auto]. apply set_In_other; [|exact H].
  intros E. apply (ne w); auto.
Qed.

Lemma remember_call_cache (mgr : MemoryManager.t) (c : RememberCall) :
  redis mgr = None ->
  redis (remember_call mgr c) = None
  /\ exists ws,
       Forall (later_write c) ws
       /\ inMemoryCache (remember_call mgr c)
          = fold_left write ws
              (JsMap.set (inMemoryCache mgr)
                         (memoryKey (call_agent c) (call_id c))
                         (VMemory (call_memory c))).
Proof.
  intros R. unfold remember_call, remember, storeShortTerm. rewrite R.
  fold (call_id c). fold (call_memory c). cbn [fst config m_agentId m_id].
  assert (L : forall m,
             redis m = None ->
             redis (storeLongTerm m (call_memory c)) = None
             /\ exists ws, Forall (later_write c) ws
                  /\ inMemoryCache (storeLongTerm m (call_memory c))
                     = fold_left write ws (inMemoryCache m)).
  { intros m Rm. unfold storeLongTerm. destruct (supabase m).
    - destruct (Supabase.insert _ _). split; [exact Rm|]. exists []. auto.
    - split; [exact Rm|].
      exists [(longtermKey (call_agent c) (call_id c), VMemory (call_memory c))].
      split; [|reflexivity]. constructor; [now left | constructor]. }
  assert (S : forall m,
             redis m = None ->
             redis (storeSemanticMemory m (call_memory c)) = None
             /\ exists ws, Forall (later_write c) ws
                  /\ inMemoryCache (storeSemanticMemory m (call_memory c))
                     = fold_left write ws (inMemoryCache m)).
  { intros m Rm. unfold storeSemanticMemory.
    destruct (m_embedding (call_memory c)) as [[|q e]|];
      try (split; [exact Rm|]; exists []; now auto).
    split; [exact Rm|].
    exists [(semanticKey (call_agent c) (call_id c),
             VSemantic (q :: e) (call_id c) (in_type (call_input c))
                       (in_confidence (call_input c)))].
    split; [|reflexivity].
    constructor; [|constructor]. right. eauto. }
  set (m1 := mk (config mgr) None (supabase mgr) _).
  assert (R1 : redis m1 = None) by reflexivity.
  set (m2 := if is_some (longTerm (config mgr)) then storeLongTerm m1 (call_memory c)
             else m1).
  assert (H2 : redis m2 = None
               /\ exists ws, Forall (later_write c) ws
                    /\ inMemoryCache m2 = fold_left write ws (inMemoryCache m1)).
  { unfold m2. destruct (is_some (longTerm (config mgr))); [now apply L|].
    split; [exact R1|]. exists []. auto. }
  destruct H2 as (R2 & ws2 & F2 & E2).
  assert (C2 : config m2 = config mgr).
  { unfold m2. destruct (is_some _); [|reflexivity].
    unfold storeLongTerm. destruct (supabase m1); [|reflexivity].
    now destruct (Supabase.insert _ _). }
  rewrite C2.
  destruct (is_some (semantic (config mgr)) && is_some (in_embedding (call_input c))).
  - destruct (S m2 R2) as (R3 & ws3 & F3 & E3). split; [exact R3|].
    exists (ws2 ++ ws3). split; [now apply Forall_app|].
    now rewrite E3, E2, fold_left_app.
  - split; [exact R2|]. exists ws2. auto.
Qed.

Lemma memoryKey_not_later (c c' : RememberCall) (w : string * CacheValue) :
  later_write c w -> fst w <> memoryKey (call_agent c') (call_id c').
Proof.
  intros [->|(e & conf & ->)]; discriminate.
Qed.

Lemma tracks_create (config : MemoryConfig) (server : Redis.t)
    (project : option Supabase.t) :
  shortTerm_provider config = StMemory ->
  tracks [] (create config server project).
Proof.
  intros P. unfold tracks, create. rewrite P.
  repeat split; simpl; try tauto; try contradiction. constructor.
Qed.

Lemma tracks_step (done : list RememberCall) (mgr : MemoryManager.t)
    (c : RememberCall) :
  tracks done mgr -> ~ In (call_id c) (map call_id done) ->
  tracks (done ++ [c]) (remember_call mgr c).
Proof.
  intros (R & wf & prov & kept) fresh.
  destruct (@remember_call_cache mgr c R) as (R' & ws & later & E).
  rewrite Forall_forall in later.
  repeat split.
  - exact R'.
  - apply remember_well_formed, wf.
  - apply remember_well_formed, wf.
  - intros k m H. rewrite E in H. apply writes_In_inv in H.
    destruct H as [H|H].
    + apply set_In_inv in H. destruct H as [[_ Em]|H].
      * injection Em as ->. exists c. split; [|reflexivity].
        apply in_or_app. right. now left.
      * destruct (prov _ _ H) as (c' & In' & ->). exists c'.
        split; [|reflexivity]. apply in_or_app. now left.
    + destruct (later _ H) as [Ew|(e & conf & Ew)]; [|discriminate].
      injection Ew as _ ->. exists c. split; [|reflexivity].
      apply in_or_app. right. now left.
  - intros c' H. rewrite E. apply in_app_or in H.
    apply writes_In_keep;
      [|intros w Hw; now apply memoryKey_not_later with (c := c), later].
    destruct H as [H|[<-|[]]]; [|apply set_In_same].
    apply set_In_other; [|now apply kept].
    intros K. apply memoryKey_inj in K. destruct K as [_ K].
    apply fresh. rewrite <- K. now apply in_map.
Qed.

Lemma tracks_run (todo done : list RememberCall) (mgr : MemoryManager.t) :
  tracks done mgr -> NoDup (map call_id (done ++ todo)) ->
  tracks (done ++ todo) (run mgr todo).
Proof.
  revert done mgr. induction todo as [|c todo IH]; intros done mgr T nd.
  - now rewrite app_nil_r.
  - simpl. replace (done ++ c :: todo) with ((done ++ [c]) ++ todo) in *
      by now rewrite <- app_assoc.
    apply IH; [|exact nd]. apply tracks_step; [exact T|].
    rewrite <- app_assoc, map_app in nd. simpl in nd.
    apply NoDup_remove_2 in nd. intros H. apply nd, in_or_app. now left.
Qed.

(** The round trip on the in-process path. Without a Redis client, after
    any sequence of [remember] calls on a new manager whose generated ids
    are pairwise distinct, and before a timer of these calls has fired,
    [recall] with no [type] and no [since] filter returns a list that holds
    every memory stored for the agent exactly once, as it was stored: the
    element with the id of a call is the call's memory, with the
    [confidence], [type] and [content] of the call's input. *)
Lemma remember_recall_roundtrip (config : MemoryConfig) (server : Redis.t)
    (project : option Supabase.t) (calls : list RememberCall)
    (agentId : string) (limit : option Z) (sessionId : option string) :
  shortTerm_provider config = StMemory ->
  NoDup (map call_id calls) ->
  exists out,
    recall (run (create config server project) calls) agentId
           (mkQuery None limit None sessionId) = Ok out
    /\ forall c, In c calls -> call_agent c = agentId ->
         In (VMemory (call_memory c)) out
         /\ filter (has_id (call_id c)) out = [VMemory (call_memory c)]
         /\ m_confidence (call_memory c) = in_confidence (call_input c)
         /\ m_type (call_memory c) = in_type (call_input c)
         /\ m_content (call_memory c) = in_content (call_input c).
Proof.
  intros P nd.
  set (mgr := run (create config server project) calls).
  set (query := mkQuery None limit None sessionId).
  assert (T : tracks calls mgr).
  { apply (@tracks_run calls [] (create config server project));
      [now apply tracks_create | exact nd]. }
  destruct T as (R & wf & prov & kept).
  assert (S : asks_semantic mgr query = false) by reflexivity.
  destruct (@recall_returns mgr agentId query wf R S) as [out E].
  exists out. split; [exact E|]. intros c Hc Ha.
  assert (F : filter (has_id (call_id c)) out = [VMemory (call_memory c)]).
  { rewrite (@recall_filter mgr agentId query _ out (call_id c)
               (gathered_without_semantic mgr agentId query S) E).
    rewrite find_append.
    assert (Hs : In (VMemory (call_memory c)) (queryShortTerm mgr agentId query)).
    { unfold queryShortTerm. rewrite R. apply scan_In.
      exists (memoryKey (call_agent c) (call_id c)). split; [now apply kept|].
      rewrite Ha, memoryKey_startsWith. reflexivity. }
    assert (Hi : has_id (call_id c) (VMemory (call_memory c)) = true).
    { change (String.eqb (call_id c) (call_id c) = true). apply String.eqb_refl. }
    destruct (find_exists _ _ _ Hs Hi) as [y Fy]. rewrite Fy.
    apply find_some in Fy. destruct Fy as [Hy Iy].
    unfold queryShortTerm in Hy. rewrite R in Hy. apply scan_In in Hy.
    destruct Hy as (k & Hk & K). apply andb_prop in K. destruct K as [K _].
    destruct wf as [_ ok].
    destruct (@memory_key_holds_memory _ _ _ (ok _ _ Hk) K) as (m & -> & _).
    destruct (prov _ _ Hk) as (c' & Hc' & ->).
    change (String.eqb (call_id c') (call_id c) = true) in Iy.
    apply String.eqb_eq in Iy.
    now rewrite (NoDup_map_In_inj call_id calls c' c nd Hc' Hc Iy). }
  repeat split; try reflexivity; [|exact F].
  assert (H : In (VMemory (call_memory c)) (filter (has_id (call_id c)) out))
    by (rewrite F; now left).
  apply filter_In in H. tauto.
Qed.

(** ** [forget] *)

(** The in-process test is a disjunction of the criteria that are given
    (a [confidenceLessThan] of [0] counts as not given). *)
Lemma matchesForgetCriteria_or (v : CacheValue) (criteria : Criteria) :
  matchesForgetCriteria v criteria = true <->
  (exists d, olderThan criteria = Some d /\ timestamp_lt (timestamp_of v) d = true)
  \/ (exists ty, c_type criteria = Some ty /\ type_of v = Some ty)
  \/ (exists c x, confidenceLessThan criteria = Some c /\ truthyQ c = true
                  /\ confidence_of v = Some x /\ Qltb x c = true).
Proof.
  unfold matchesForgetCriteria.
  match goal with
  | |- (if ?a then true else if ?b then true else if ?c then true else false)
       = true <-> _ =>
      set (older := a); set (same_type := b); set (unsure := c)
  end.
  assert (H1 : older = true <->
               exists d, olderThan criteria = Some d
                         /\ timestamp_lt (timestamp_of v) d = true).
  { unfold older. destruct (olderThan criteria) as [d|]; split.
    - eauto.
    - intros (d' & E & T). now injection E as <-.
    - discriminate.
    - intros (d' & E & _). discriminate. }
  assert (H2 : same_type = true <->
               exists ty, c_type criteria = Some ty /\ type_of v = Some ty).
  { unfold same_type.
    destruct (c_type criteria) as [ty|], (type_of v) as [ty'|]; split;
      try discriminate; try (intros (t & E & T); discriminate).
    - intros M. exists ty. split; [reflexivity|].
      destruct ty', ty; try discriminate M; reflexivity.
    - intros (t & E & T). injection E as <-. injection T as ->.
      now destruct ty. }
  assert (H3 : unsure = true <->
               exists c x, confidenceLessThan criteria = Some c
                           /\ truthyQ c = true
                           /\ confidence_of v = Some x /\ Qltb x c = true).
  { unfold unsure.
    destruct (confidenceLessThan criteria) as [c|], (confidence_of v) as [x|];
      split; try discriminate;
      try (intros (c' & x' & E & _ & Ex & _); discriminate).
    - intros T. apply andb_prop in T. exists c, x. tauto.
    - intros (c' & x' & E & T & Ex & L). injection E as <-. injection Ex as <-.
      now rewrite T, L.
    - intros T. apply andb_prop in T. destruct T as [_ T]. discriminate T. }
  rewrite <- H1, <- H2, <- H3.
  destruct older, same_type, unsure; intuition discriminate.
Qed.

(** The long-term test is a conjunction: the agent and every criterion that
    is given. *)
Lemma delete_matches_and (agent : string) (older : option Z)
    (ty : option MemoryType) (conf : option Q) (r : Supabase.MemoryRow) :
  Supabase.delete_matches agent older ty conf r = true <->
  Supabase.row_agent_id r = agent
  /\ (forall d, older = Some d -> Supabase.row_created_at r < d)
  /\ (forall t, ty = Some t -> Supabase.row_memory_type r = t)
  /\ (forall c, conf = Some c ->
        exists x, Supabase.row_confidence r = Some x /\ Qltb x c = true).
Proof.
  unfold Supabase.delete_matches, Supabase.opt_filter.
  rewrite !andb_true_iff, String.eqb_eq.
  assert (T : forall a b, MemoryType_eqb a b = true <-> a = b)
    by (intros [] []; simpl; split; congruence).
  split.
  - intros [[[A O] Ty] C]. split; [exact A|]. repeat split.
    + intros d ->. now apply Z.ltb_lt.
    + intros t ->. now apply T.
    + intros c ->. destruct (Supabase.row_confidence r) as [x|]; [eauto|discriminate].
  - intros (A & O & Ty & C). repeat split; [exact A| | |].
    + destruct older as [d|]; [|reflexivity]. now apply Z.ltb_lt, O.
    + destruct ty as [t|]; [|reflexivity]. now apply T, Ty.
    + destruct conf as [c|]; [|reflexivity].
      destruct (C c eq_refl) as (x & -> & L). exact L.
Qed.

Lemma filter_split_length (A : Type) (p : A -> bool) (l : list A) :
  (length (filter p l) + length (filter (fun x => negb (p x)) l))%nat = length l.
Proof.
  induction l as [|x l IH]; simpl; [reflexivity|].
  destruct (p x); simpl; lia.
Qed.

(** C4. A memory with [confidence = 0.3] and [type = transaction], held in
    the in-process cache under a key of the agent and as a row of the
    long-term table, under [forget] with
    [{ type: 'decision', confidenceLessThan: 0.5 }]: the in-process pass
    deletes the cache entry (the confidence criterion alone matches), the
    long-term pass keeps the row (the type does not match), and the returned
    count is the number of rows removed plus the number of cache entries
    removed. *)
Theorem forget_asymmetry (mgr : MemoryManager.t) (db : Supabase.t)
    (agentId k : string) (m : Memory) (row : Supabase.MemoryRow) :
  NoDup (JsMap.keys (inMemoryCache mgr)) ->
  supabase mgr = Some db ->
  In (k, VMemory m) (inMemoryCache mgr) ->
  Str.includes k agentId = true ->
  m_confidence m = Some (3 # 10)%Q ->
  m_type m = Transaction ->
  In row (Supabase.agent_memories db) ->
  Supabase.row_agent_id row = agentId ->
  Supabase.row_confidence row = Some (3 # 10)%Q ->
  Supabase.row_memory_type row = Transaction ->
  exists db',
    supabase (fst (forget mgr agentId decision_or_unsure)) = Some db'
    /\ ~ In (k, VMemory m)
           (inMemoryCache (fst (forget mgr agentId decision_or_unsure)))
    /\ In row (Supabase.agent_memories db')
    /\ snd (forget mgr agentId decision_or_unsure)
       = (Z.of_nat (length (Supabase.agent_memories db))
          - Z.of_nat (length (Supabase.agent_memories db')))
         + (Z.of_nat (length (inMemoryCache mgr))
            - Z.of_nat (length (inMemoryCache
                                  (fst (forget mgr agentId decision_or_unsure))))).
Proof.
  intros nd S Hk Inc Conf Ty Hrow Ra Rc Rt.
  unfold forget. rewrite S.
  unfold forget_longTerm, Supabase.delete_memories.
  set (p := Supabase.delete_matches agentId (olderThan decision_or_unsure)
              (c_type decision_or_unsure) (confidenceLessThan decision_or_unsure)).
  assert (Keep : p row = false).
  { unfold p, Supabase.delete_matches. simpl. rewrite Rt. simpl.
    now rewrite andb_false_r. }
  assert (Del : forgets agentId decision_or_unsure (k, VMemory m) = true).
  { unfold forgets. simpl. rewrite Inc.
    unfold matchesForgetCriteria. simpl. rewrite Ty, Conf. reflexivity. }
  pose proof (filter_split_length (forgets agentId decision_or_unsure)
                                  (inMemoryCache mgr)) as Lc.
  pose proof (filter_split_length p (Supabase.agent_memories db)) as Lr.
  destruct (Supabase.healthy db) eqn:H;
    rewrite forget_inMemory_spec by exact nd; cbn [fst snd];
    eexists; (split; [reflexivity|]); cbn [inMemoryCache Supabase.agent_memories];
    (split; [intros X; apply filter_In in X; destruct X as [_ X];
             rewrite Del in X; discriminate|]).
  - split.
    + apply filter_In. split; [exact Hrow | now rewrite Keep].
    + rewrite length_map. lia.
  - split; [exact Hrow | lia].
Qed.

(** ** Concrete runs *)

Lemma forget_asymmetry_witness :
  exists db',
    supabase (fst (forget stored_in_both "a" decision_or_unsure)) = Some db'
    /\ ~ In (memoryKey "a" (call_id unsure_transaction),
             VMemory (call_memory unsure_transaction))
           (inMemoryCache (fst (forget stored_in_both "a" decision_or_unsure)))
    /\ In unsure_row (Supabase.agent_memories db')
    /\ snd (forget stored_in_both "a" decision_or_unsure)
       = (Z.of_nat (length (Supabase.agent_memories
                              (Supabase.mk [unsure_row] [] true)))
          - Z.of_nat (length (Supabase.agent_memories db')))
         + (Z.of_nat (length (inMemoryCache stored_in_both))
            - Z.of_nat (length (inMemoryCache
                 (fst (forget stored_in_both "a" decision_or_unsure))))).
Proof.
  apply (@forget_asymmetry stored_in_both (Supabase.mk [unsure_row] [] true) "a"
           (memoryKey "a" (call_id unsure_transaction))
           (call_memory unsure_transaction) unsure_row); evaluate.
Defined.

(** What [forget] returns there: the cache entry is counted, the row is not. *)
Example forget_asymmetry_count :
  snd (forget stored_in_both "a" decision_or_unsure) = 1.
Proof. reflexivity. Qed.

(** C10. [recall] with [limit: 0] is [recall] without a [limit]: the [0] is
    falsy, so the short-term query and the sufficiency test use the default
    [10] and the long-term query gets no limit. *)
Theorem recall_limit_zero_is_no_limit (mgr : MemoryManager.t) (agentId : string)
    (ty : option MemoryType) (since : option Z) (sessionId : option string) :
  recall mgr agentId (mkQuery ty (Some 0) since sessionId)
  = recall mgr agentId (mkQuery ty None since sessionId).
Proof.
  unfold recall, gathered, queryShortTerm, queryLongTerm, querySemanticMemory,
    is_pattern_query, matchesQuery.
  reflexivity.
Qed.

(** The three places where the limit is read. *)
Lemma limit_zero_reads :
  number_or (Some 0) 10 = 10
  /\ number_or None 10 = 10
  /\ (if truthyZ 0 then Some 0 else None) = None.
Proof. repeat split. Qed.

(** With [limit: 0] the three memories come back, not an empty list. *)
Example recall_limit_zero_returns_all :
  recall three_memories "a" (mkQuery None (Some 0) None None)
  = Ok (map (fun c => VMemory (call_memory c)) (rev three_calls)).
Proof. reflexivity. Qed.

(** *** Round trip *)

Lemma three_calls_distinct : NoDup (map call_id three_calls).
Proof. evaluate. Qed.

Example roundtrip_of_three_calls :
  exists out,
    recall (run (create Scenario.degraded Redis.empty None) three_calls) "a"
           (mkQuery None None None None) = Ok out
    /\ forall c, In c three_calls -> call_agent c = "a" ->
         In (VMemory (call_memory c)) out
         /\ filter (has_id (call_id c)) out = [VMemory (call_memory c)]
         /\ m_confidence (call_memory c) = in_confidence (call_input c)
         /\ m_type (call_memory c) = in_type (call_input c)
         /\ m_content (call_memory c) = in_content (call_input c).
Proof.
  apply (@remember_recall_roundtrip Scenario.degraded Redis.empty None
           three_calls "a" None None).
  - reflexivity.
  - evaluate.
Qed.

(** C1. With a Redis client and [maxItems = 100], after two calls of
    [remember] for one agent, with distinct ids, the short-term tier shows
    both memories, read back from their JSON text with the stored [type],
    [content] and [confidence] and with a string for [timestamp]; [recall]
    with no filter and [limit: 100] then throws in its sort, where
    [getTime] is called on that string: the caller gets a rejected promise,
    not a list that holds the two memories. *)
Theorem recall_rejects_memories_read_from_redis :
  NoDup (map call_id [first_call; second_call])
  /\ shortTerm_maxItems (config two_on_redis) = Some 100
  /\ queryShortTerm two_on_redis "a" no_filter
     = [read_back (call_memory second_call); read_back (call_memory first_call)]
  /\ Forall (fun v => exists ms, timestamp_of v = Some (IsoString ms))
            (queryShortTerm two_on_redis "a" no_filter)
  /\ recall two_on_redis "a" no_filter
     = Throw (TypeError "timestamp.getTime is not a function").
Proof.
  split; [evaluate|]. split; [reflexivity|]. split; [reflexivity|].
  split; [|reflexivity].
  repeat constructor; eexists; reflexivity.
Qed.

(** With [maxItems = 1] and three memories the index keeps the two newest
    ids: with [limit: 100] the short-term tier does not show the first
    memory, and [recall] returns no list that holds an entry with its id
    (here it returns no list at all). *)
Lemma roundtrip_fails_with_redis :
  NoDup (map call_id three_calls)
  /\ In first_call three_calls
  /\ filter (has_id (call_id first_call))
            (queryShortTerm three_on_redis "a" (mkQuery None (Some 100) None None))
     = []
  /\ ~ exists out,
         recall three_on_redis "a" (mkQuery None (Some 100) None None) = Ok out
         /\ filter (has_id (call_id first_call)) out
            = [VMemory (call_memory first_call)].
Proof.
  split; [exact three_calls_distinct|].
  split; [now left|]. split; [reflexivity|].
  intros (out & E & _). vm_compute in E. discriminate E.
Qed.

(** *** Order *)

(** C6 as stated fails: the list that [recall] returns for two memories of
    the same millisecond is not strictly descending. *)
Lemma recall_not_strictly_descending :
  exists out,
    recall same_millisecond "a" noQuery = Ok out /\ ~ strictly_descending out.
Proof.
  eexists. split; [vm_compute; reflexivity|].
  intros [(ta & tb & Ha & Hb & Lt) _].
  vm_compute in Ha, Hb. injection Ha as <-. injection Hb as <-. lia.
Qed.

Lemma same_millisecond_reachable : Reachable same_millisecond.
Proof. repeat apply reach_remember. apply reach_create. Qed.

Lemma recall_sorted_newest_first_witness :
  exists out,
    recall same_millisecond "a" noQuery = Ok out /\ descending out.
Proof.
  destruct (recall_sorted_newest_first same_millisecond "a" noQuery) as [S R].
  destruct (R same_millisecond_reachable eq_refl eq_refl) as [out E].
  exists out. split; [exact E | exact (S out E)].
Defined.

(** *** Duplicates *)

Lemma visible_twice_reachable : Reachable visible_twice.
Proof. repeat apply reach_remember. apply reach_create. Qed.

Lemma recall_keeps_first_of_each_id_witness :
  queryShortTerm visible_twice "a" noQuery = [VMemory (call_memory unsure_transaction)]
  /\ longTerm_part visible_twice "a" noQuery = [memory_of_row stale_row]
  /\ exists out,
       recall visible_twice "a" noQuery = Ok out
       /\ filter (has_id (call_id unsure_transaction)) out
          = [VMemory (call_memory unsure_transaction)].
Proof.
  split; [reflexivity|]. split; [reflexivity|].
  destruct (recall_keeps_first_of_each_id visible_twice "a" noQuery) as [F R].
  destruct (R visible_twice_reachable eq_refl eq_refl) as [out E].
  exists out. split; [exact E|].
  destruct (F out E) as (sem & [->|[A _]] & Fi).
  - rewrite Fi. reflexivity.
  - discriminate A.
Defined.

(** With a long-term tier that falls back to the cache, a memory is under
    its short-term and its long-term key; it is gathered twice and returned
    once. *)
Example recall_once_from_both_in_process_tiers :
  let mgr := run (create Scenario.degraded_longterm Redis.empty None)
                 [unsure_transaction] in
  gathered mgr "a" noQuery
  = Ok [VMemory (call_memory unsure_transaction);
        VMemory (call_memory unsure_transaction)]
  /\ recall mgr "a" noQuery = Ok [VMemory (call_memory unsure_transaction)].
Proof. split; reflexivity. Qed.

(** *** Where the code departs from the specification *)

(** C2. After one [remember] of a pattern memory with an embedding, a
    pattern query gathers the memory and its semantic record, which has no
    [timestamp], and the sort of [recall] throws: the caller gets a rejected
    promise, not a list. *)
Theorem recall_throws_on_semantic_record :
  (exists m e i ty c,
      gathered pattern_with_embedding "a" pattern_query
      = Ok [VMemory m; VSemantic e i ty c])
  /\ exists e, recall pattern_with_embedding "a" pattern_query = Throw e.
Proof.
  split.
  - do 5 eexists. vm_compute. reflexivity.
  - eexists. vm_compute. reflexivity.
Qed.

(** With a Redis client the memories come back from [JSON.parse] with a
    string for [timestamp], and two of them are enough for the sort to
    throw. *)
Example recall_throws_on_parsed_memories :
  exists e,
    recall three_on_redis "a" (mkQuery None (Some 100) None None) = Throw e.
Proof. eexists. vm_compute. reflexivity. Qed.

(** C3. With [maxItems = 2], after three calls of [remember] for one agent
    the short-term tier shows three memories: with a Redis client the index
    is trimmed to the positions [0..maxItems], which are [maxItems + 1] ids;
    without one nothing is trimmed. *)
Theorem short_term_shows_more_than_maxItems :
  shortTerm_maxItems (config three_over_two) = Some 2
  /\ (exists r, redis three_over_two = Some r
                /\ length (Redis.list_at r (listKey "a")) = 3%nat)
  /\ length (queryShortTerm three_over_two "a" noQuery) = 3%nat
  /\ shortTerm_maxItems (config three_over_two_degraded) = Some 2
  /\ length (queryShortTerm three_over_two_degraded "a" noQuery) = 3%nat.
Proof.
  split; [reflexivity|]. split; [eexists; split; reflexivity|].
  repeat split.
Qed.

(** C7. [forget] for the agent ["agent-1"] deletes the memory of the agent
    ["agent-10"], whose key contains the text [agent-1]: [recall] for
    ["agent-10"] returns the memory before the call and nothing after it. *)
Theorem forget_deletes_other_agents_memory :
  "agent-1" <> "agent-10"
  /\ (exists m, recall one_of_agent_10 "agent-10" noQuery = Ok [VMemory m])
  /\ forget one_of_agent_10 "agent-1" unsure
     = (create Scenario.degraded Redis.empty None, 1)
  /\ recall (fst (forget one_of_agent_10 "agent-1" unsure)) "agent-10" noQuery
     = Ok [].
Proof.
  split; [discriminate|]. split; [eexists; vm_compute; reflexivity|].
  split; reflexivity.
Qed.

(** C8. Without a Redis client [getStats] reports [shortTermCount = 0] while
    the short-term tier shows one memory (the test [getStats] of the
    repository expects a count above [0] here). *)
Theorem getStats_counts_nothing_without_redis :
  redis one_memory = None
  /\ length (queryShortTerm one_memory "a" noQuery) = 1%nat
  /\ shortTermCount (getStats one_memory "a") = 0.
Proof. repeat split. Qed.

(** With a Redis client the count is the length of the agent's index. *)
Lemma getStats_counts_the_index (mgr : MemoryManager.t) (r : Redis.t)
    (agentId : string) :
  redis mgr = Some r ->
  shortTermCount (getStats mgr agentId)
  = Z.of_nat (length (Redis.list_at r (listKey agentId))).
Proof.
  intros R. unfold getStats. rewrite R.
  destruct (supabase mgr) as [db|]; [|reflexivity].
  now destruct (Supabase.select_pattern_confidence db agentId) as [[|q l]|].
Qed.

(** C9. With a Supabase project, after two learning events for one
    signature the stored row has [frequency = 1] and the [success_rate] of
    the last event: the upsert writes fresh values over the row. Without a
    project the in-process counters are [2] and [1]. *)
Theorem pattern_row_is_overwritten :
  (exists db,
      supabase (learned_twice Scenario.with_supabase (Some Supabase.empty)) = Some db
      /\ Supabase.agent_patterns db
         = [Supabase.mkPatternRow "a" "greeting" 1 0%Q 0%Q 2000])
  /\ JsMap.get (inMemoryCache (learned_twice Scenario.degraded None))
               (patternKey "a" "greeting")
     = Some (VPattern 2 1).
Proof.
  split; [eexists; split; reflexivity | reflexivity].
Qed.

(** *** The in-process pattern counters add up *)

Lemma get_set_same (V : Type) (m : JsMap.t V) (k : string) (v : V) :
  JsMap.get (JsMap.set m k v) k = Some v.
Proof.
  induction m as [|[k0 v0] m IH]; simpl.
  - now rewrite String.eqb_refl.
  - destruct (String.eqb k0 k) eqn:E; simpl.
    + now rewrite String.eqb_refl.
    + now rewrite E.
Qed.

Lemma get_set_other (V : Type) (m : JsMap.t V) (k k' : string) (v : V) :
  k <> k' -> JsMap.get (JsMap.set m k v) k' = JsMap.get m k'.
Proof.
  intros ne. apply String.eqb_neq in ne.
  induction m as [|[k0 v0] m IH]; simpl.
  - now rewrite ne.
  - destruct (String.eqb k0 k) eqn:E; simpl.
    + apply String.eqb_eq in E. subst k0. now rewrite ne.
    + now rewrite IH.
Qed.








(** *** The Redis index keeps one id more than [maxItems] *)

Lemma range_from_zero (A : Type) (l : list A) (stop : Z) :
  0 <= stop -> Redis.range l 0 stop = firstn (Z.to_nat (stop + 1)) l.
Proof.
  intros H. unfold Redis.range. cbn [Z.ltb Z.compare].
  replace (stop <? 0) with false by (symmetry; apply Z.ltb_ge; lia).
  replace (0 >? stop) with false
    by (symmetry; rewrite Z.gtb_ltb; apply Z.ltb_ge; lia).
  cbn [orb]. destruct l as [|x l].
  - simpl. now destruct (Z.to_nat (stop + 1)).
  - replace (0 >=? Z.of_nat (length (x :: l))) with false
      by (symmetry; rewrite Z.geb_leb; apply Z.leb_gt; simpl; lia).
    cbn [Z.to_nat skipn]. destruct (stop >=? Z.of_nat (length (x :: l))) eqn:G.
    + rewrite Z.geb_leb in G. apply Z.leb_le in G.
      rewrite !firstn_all2; [reflexivity | lia | lia].
    + f_equal. lia.
Qed.

Lemma remember_config (mgr : MemoryManager.t) (agentId : string)
    (memory : MemoryInput) (env : Reading) :
  config (fst (remember mgr agentId memory env)) = config mgr.
Proof.
  unfold remember. cbn [fst].
  set (full := mkMemory _ _ _ _ _ _ _ _).
  assert (C1 : config (storeShortTerm mgr full) = config mgr)
    by (unfold storeShortTerm; now destruct (redis mgr)).
  assert (C2 : forall m, config (storeLongTerm m full) = config m).
  { intros m. unfold storeLongTerm. destruct (supabase m); [|reflexivity].
    now destruct (Supabase.insert _ _). }
  assert (C3 : forall m, config (storeSemanticMemory m full) = config m).
  { intros m. unfold storeSemanticMemory.
    now destruct (m_embedding full) as [[|q e]|]. }
  repeat match goal with
         | |- context [if ?b then _ else _] => destruct b
         end; now rewrite ?C3, ?C2, ?C1.
Qed.

Lemma remember_redis (mgr : MemoryManager.t) (agentId : string)
    (memory : MemoryInput) (env : Reading) :
  redis (fst (remember mgr agentId memory env))
  = redis (storeShortTerm mgr
             (mkMemory (generateId (id_clock env) (random36 env)) agentId
                       (DateObj (date_clock env)) (in_type memory)
                       (in_content memory) (in_confidence memory)
                       (in_embedding memory) (in_metadata memory))).
Proof.
  unfold remember. cbn [fst].
  set (full := mkMemory _ _ _ _ _ _ _ _).
  assert (R2 : forall m, redis (storeLongTerm m full) = redis m).
  { intros m. unfold storeLongTerm. destruct (supabase m); [|reflexivity].
    now destruct (Supabase.insert _ _). }
  assert (R3 : forall m, redis (storeSemanticMemory m full) = redis m).
  { intros m. unfold storeSemanticMemory.
    now destruct (m_embedding full) as [[|q e]|]. }
  repeat match goal with
         | |- context [if ?b then _ else _] => destruct b
         end; now rewrite ?R3, ?R2.
Qed.

(** One [remember] with a Redis client: the id goes to the front of the
    agent's index, which is then cut to its first [maxItems + 1] ids. *)
Lemma remember_index (mgr : MemoryManager.t) (r : Redis.t) (c : RememberCall) :
  redis mgr = Some r ->
  0 <= number_or (shortTerm_maxItems (config mgr)) 100 ->
  exists r',
    redis (remember_call mgr c) = Some r'
    /\ Redis.list_at r' (listKey (call_agent c))
       = firstn (Z.to_nat (number_or (shortTerm_maxItems (config mgr)) 100 + 1))
                (call_id c :: Redis.list_at r (listKey (call_agent c))).
Proof.
  intros R M. unfold remember_call. rewrite remember_redis.
  unfold storeShortTerm. rewrite R. cbn [redis m_agentId m_id].
  eexists. split; [reflexivity|].
  unfold Redis.expire, Redis.ltrim, Redis.list_at at 1. cbn [Redis.lists].
  rewrite get_set_same, range_from_zero by exact M.
  unfold Redis.lpush, Redis.list_at at 1. cbn [Redis.lists].
  now rewrite get_set_same.
Qed.

(** After a run of one or more calls for one agent the index holds the
    smaller of the number of ids pushed onto it and [maxItems + 1]: once
    [maxItems + 1] memories are stored it holds [maxItems + 1] ids, one more
    than [maxItems]. *)
Lemma run_index_length (agentId : string) (calls : list RememberCall)
    (c : RememberCall) (mgr : MemoryManager.t) (r : Redis.t) :
  redis mgr = Some r ->
  0 <= number_or (shortTerm_maxItems (config mgr)) 100 ->
  Forall (fun c => call_agent c = agentId) (c :: calls) ->
  exists r',
    redis (run mgr (c :: calls)) = Some r'
    /\ length (Redis.list_at r' (listKey agentId))
       = Nat.min (length (Redis.list_at r (listKey agentId)) + length (c :: calls))
                 (Z.to_nat (number_or (shortTerm_maxItems (config mgr)) 100 + 1)).
Proof.
  revert c mgr r. induction calls as [|c' calls IH]; intros c mgr r R M F.
  - destruct (@remember_index mgr r c R M) as (r1 & R1 & L1).
    pose proof (Forall_inv F) as Hc. cbv beta in Hc. rewrite Hc in L1.
    exists r1. split; [exact R1|]. rewrite L1, length_firstn. cbn [length]. lia.
  - destruct (@remember_index mgr r c R M) as (r1 & R1 & L1).
    pose proof (Forall_inv F) as Hc. cbv beta in Hc. rewrite Hc in L1.
    pose proof (Forall_inv_tail F) as F'.
    assert (C1 : config (remember_call mgr c) = config mgr)
      by apply remember_config.
    rewrite <- C1 in M.
    destruct (IH c' _ _ R1 M F') as (r' & R' & L').
    exists r'. split; [exact R'|].
    rewrite L', C1, L1, length_firstn. cbn [length]. lia.
Qed.

(** ** Further properties of the manager *)

(** *** Ids and keys *)

(** X1. Every generated id starts with [mem_] and holds no colon, whatever
    the clock and the random digits. *)
Theorem generateId_shape (now : Z) (random : list N) :
  Str.startsWith (generateId now random) "mem_" = true
  /\ Str.mem ":" (generateId now random) = false.
Proof.
  split; [|apply generateId_no_colon].
  unfold Str.startsWith, generateId. apply prefix_append.
Qed.

Lemma tier_key_inj (tier a a' : string) (now now' : Z) (r r' : list N) :
  (tier ++ a ++ ":" ++ generateId now r)%string
  = (tier ++ a' ++ ":" ++ generateId now' r')%string ->
  a = a' /\ generateId now r = generateId now' r'.
Proof.
  intros E. apply append_cancel_l in E.
  apply colon_split_inj in E; [exact E | |]; apply generateId_no_colon.
Qed.

(** X2. The cache keys of generated ids tell the agent and the id: two
    calls write the same short-term, long-term or semantic key only for the
    same agent and the same id, also when an agent id holds colons. *)
Theorem tier_keys_injective (a a' : string) (now now' : Z) (r r' : list N) :
  (memoryKey a (generateId now r) = memoryKey a' (generateId now' r')
   <-> a = a' /\ generateId now r = generateId now' r')
  /\ (longtermKey a (generateId now r) = longtermKey a' (generateId now' r')
      <-> a = a' /\ generateId now r = generateId now' r')
  /\ (semanticKey a (generateId now r) = semanticKey a' (generateId now' r')
      <-> a = a' /\ generateId now r = generateId now' r').
Proof.
  unfold memoryKey, longtermKey, semanticKey.
  split; [|split];
    (split; [intros E; now apply tier_key_inj in E | intros [-> ->]; reflexivity]).
Qed.

Lemma learned_once_reachable : Reachable learned_once.
Proof. apply reach_learn, reach_create. Qed.

(** X4. In every manager that the public methods can reach, the cache is a
    map with distinct keys in which every memory has a [Date] timestamp and
    sits under the short-term or long-term key of its own agent and id,
    every semantic record sits under a semantic key of its id, and counters
    sit under a pattern key. *)
Theorem reachable_cache_shape (mgr : MemoryManager.t) :
  Reachable mgr ->
  NoDup (JsMap.keys (inMemoryCache mgr))
  /\ forall k v, In (k, v) (inMemoryCache mgr) -> entry_ok k v.
Proof. apply reachable_well_formed. Qed.

Lemma reachable_cache_shape_witness :
  NoDup (JsMap.keys (inMemoryCache learned_once))
  /\ forall k v, In (k, v) (inMemoryCache learned_once) -> entry_ok k v.
Proof. apply (@reachable_cache_shape learned_once learned_once_reachable). Defined.

(** *** [remember], then [recall] *)

Lemma remember_cache_memories (mgr : MemoryManager.t) (agentId : string)
    (memory : MemoryInput) (env : Reading) :
  redis mgr = None ->
  redis (fst (remember mgr agentId memory env)) = None
  /\ In (memoryKey agentId (generateId (id_clock env) (random36 env)),
         VMemory (fullMemory agentId memory env))
        (inMemoryCache (fst (remember mgr agentId memory env)))
  /\ forall k m,
       In (k, VMemory m) (inMemoryCache (fst (remember mgr agentId memory env))) ->
       In (k, VMemory m) (inMemoryCache mgr) \/ m = fullMemory agentId memory env.
Proof.
  intros R.
  destruct (@remember_call_cache mgr (mkCall agentId memory env) R)
    as (R' & ws & later & E).
  change (remember_call mgr (mkCall agentId memory env))
    with (fst (remember mgr agentId memory env)) in *.
  change (call_memory (mkCall agentId memory env))
    with (fullMemory agentId memory env) in *.
  change (call_id (mkCall agentId memory env))
    with (generateId (id_clock env) (random36 env)) in *.
  cbn [call_agent] in E.
  rewrite Forall_forall in later.
  split; [exact R'|]. rewrite E. split.
  - apply writes_In_keep; [apply set_In_same|].
    intros w Hw.
    exact (@memoryKey_not_later (mkCall agentId memory env)
             (mkCall agentId memory env) w (later w Hw)).
  - intros k m H. apply writes_In_inv in H. destruct H as [H|H].
    + apply set_In_inv in H. destruct H as [[_ Em]|H]; [|now left].
      injection Em as ->. now right.
    + destruct (later _ H) as [Ew|(e & conf & Ew)]; [|discriminate].
      injection Ew as _ ->. now right.
Qed.

(** *** Timers *)

Lemma setTimeout_delay_kept (ms : Z) :
  1 <= ms <= 2147483647 -> setTimeout_delay ms = ms.
Proof.
  intros [lo hi]. unfold setTimeout_delay.
  destruct (Z.ltb_spec ms 1); [lia|].
  destruct (Z.ltb_spec 2147483647 ms); [lia|]. reflexivity.
Qed.

Lemma storeShortTerm_timer_ttl (mgr : MemoryManager.t) (m : Memory) :
  redis mgr = None -> timer_lasts_ttl (config mgr) ->
  storeShortTerm_timer mgr m
  = Some (shortTerm_ttl (config mgr) * 1000, memoryKey (m_agentId m) (m_id m)).
Proof.
  intros R T. unfold storeShortTerm_timer. rewrite R.
  now rewrite setTimeout_delay_kept.
Qed.

Lemma timers_fire_setup (mgr : MemoryManager.t) (fired : list string) :
  config (timers_fire mgr fired) = config mgr
  /\ redis (timers_fire mgr fired) = redis mgr
  /\ supabase (timers_fire mgr fired) = supabase mgr.
Proof.
  revert mgr. induction fired as [|k fired IH]; intros mgr; simpl; [auto|].
  destruct (IH (timer_fires mgr k)) as (C & R & S). now rewrite C, R, S.
Qed.

Lemma timers_fire_well_formed (mgr : MemoryManager.t) (fired : list string) :
  well_formed mgr -> well_formed (timers_fire mgr fired).
Proof.
  revert mgr. induction fired as [|k fired IH]; intros mgr wf; simpl; [exact wf|].
  now apply IH, timer_fires_well_formed.
Qed.

Lemma timers_fire_In_inv (mgr : MemoryManager.t) (fired : list string)
    (kv : string * CacheValue) :
  In kv (inMemoryCache (timers_fire mgr fired)) -> In kv (inMemoryCache mgr).
Proof.
  revert mgr. induction fired as [|k fired IH]; intros mgr; simpl; [auto|].
  intros H. apply IH in H. now apply (delete_In (inMemoryCache mgr) k).
Qed.

Lemma timers_fire_In_keep (mgr : MemoryManager.t) (fired : list string)
    (k : string) (v : CacheValue) :
  ~ In k fired -> In (k, v) (inMemoryCache mgr) ->
  In (k, v) (inMemoryCache (timers_fire mgr fired)).
Proof.
  revert mgr. induction fired as [|k' fired IH]; intros mgr N H; simpl; [exact H|].
  apply IH; [intros F; apply N; now right|].
  apply delete_In_other; [|exact H]. intros E. apply N. now left.
Qed.

(** The memory of a call of [remember] comes back from [recall] as long as
    no timer of its key has fired. *)
Lemma recall_before_own_timer (mgr : MemoryManager.t) (agentId : string)
    (memory : MemoryInput) (env : Reading) (query : Query) (fired : list string) :
  Reachable mgr ->
  redis mgr = None ->
  asks_semantic mgr query = false ->
  matchesQuery (VMemory (fullMemory agentId memory env)) query = true ->
  fresh_id mgr (generateId (id_clock env) (random36 env)) ->
  ~ In (memoryKey agentId (generateId (id_clock env) (random36 env))) fired ->
  exists out,
    recall (timers_fire (fst (remember mgr agentId memory env)) fired) agentId query
    = Ok out
    /\ filter (has_id (generateId (id_clock env) (random36 env))) out
       = [VMemory (fullMemory agentId memory env)].
Proof.
  intros Rch R S M fresh own.
  set (mgr' := timers_fire (fst (remember mgr agentId memory env)) fired).
  set (full := fullMemory agentId memory env) in *.
  set (id := generateId (id_clock env) (random36 env)) in *.
  destruct (timers_fire_setup (fst (remember mgr agentId memory env)) fired)
    as (C' & R0 & _). fold mgr' in C', R0.
  assert (wf : well_formed mgr').
  { apply timers_fire_well_formed, reachable_well_formed.
    now apply reach_remember. }
  destruct (@remember_cache_memories mgr agentId memory env R)
    as (R' & Hin & prov). fold full id in Hin, prov.
  rewrite R' in R0.
  assert (Hin' : In (memoryKey agentId id, VMemory full) (inMemoryCache mgr'))
    by now apply timers_fire_In_keep.
  assert (S' : asks_semantic mgr' query = false).
  { unfold asks_semantic. rewrite C'. now rewrite remember_config. }
  destruct (@recall_returns mgr' agentId query wf R0 S') as [out E].
  exists out. split; [exact E|].
  rewrite (@recall_filter mgr' agentId query _ out id
             (gathered_without_semantic mgr' agentId query S') E).
  rewrite find_append.
  assert (Hs : In (VMemory full) (queryShortTerm mgr' agentId query)).
  { unfold queryShortTerm. rewrite R0. apply scan_In.
    exists (memoryKey agentId id). split; [exact Hin'|].
    now rewrite memoryKey_startsWith, M. }
  assert (Hi : has_id id (VMemory full) = true).
  { change (String.eqb id id = true). apply String.eqb_refl. }
  destruct (find_exists _ _ _ Hs Hi) as [y Fy]. rewrite Fy.
  apply find_some in Fy. destruct Fy as [Hy Iy].
  unfold queryShortTerm in Hy. rewrite R0 in Hy. apply scan_In in Hy.
  destruct Hy as (k & Hk & K). apply andb_prop in K. destruct K as [K _].
  destruct wf as [_ ok].
  destruct (@memory_key_holds_memory _ _ _ (ok _ _ Hk) K) as (m & -> & _).
  apply timers_fire_In_inv in Hk.
  destruct (prov _ _ Hk) as [Old| ->]; [|reflexivity].
  exfalso. apply (fresh _ _ Old).
  change (String.eqb (m_id m) id = true) in Iy. now apply String.eqb_eq.
Qed.

(** X5. From any reachable manager without a Redis client and with a [ttl]
    whose milliseconds [setTimeout] keeps ([1 <= ttl * 1000 <= 2^31 - 1]): a
    memory that is stored under an id that no cached memory has gets a timer
    of [ttl] seconds on its key, and as long as no timer of that key has
    fired, whatever timers of other keys have fired, [recall] for its agent
    returns it exactly once and as stored, for every query that the memory
    passes ([type] equal, [since] not after its timestamp) and that does not
    reach the semantic tier. *)
Theorem remember_then_recall (mgr : MemoryManager.t) (agentId : string)
    (memory : MemoryInput) (env : Reading) (query : Query) (fired : list string) :
  Reachable mgr ->
  redis mgr = None ->
  timer_lasts_ttl (config mgr) ->
  asks_semantic mgr query = false ->
  matchesQuery (VMemory (fullMemory agentId memory env)) query = true ->
  fresh_id mgr (generateId (id_clock env) (random36 env)) ->
  ~ In (memoryKey agentId (generateId (id_clock env) (random36 env))) fired ->
  storeShortTerm_timer mgr (fullMemory agentId memory env)
  = Some (shortTerm_ttl (config mgr) * 1000,
          memoryKey agentId (generateId (id_clock env) (random36 env)))
  /\ exists out,
       recall (timers_fire (fst (remember mgr agentId memory env)) fired)
              agentId query = Ok out
       /\ filter (has_id (generateId (id_clock env) (random36 env))) out
          = [VMemory (fullMemory agentId memory env)].
Proof.
  intros Rch R T S M fresh own. split.
  - now apply storeShortTerm_timer_ttl.
  - now apply recall_before_own_timer.
Qed.

Lemma remember_then_recall_witness :
  storeShortTerm_timer learned_once
    (fullMemory "a" (Scenario.input Decision (9 # 10)%Q) (Scenario.at_ 2000 [2%N]))
  = Some (3600000, memoryKey "a" (generateId 2000 [2%N]))
  /\ exists out,
       recall (timers_fire
                 (fst (remember learned_once "a" (Scenario.input Decision (9 # 10)%Q)
                                (Scenario.at_ 2000 [2%N])))
                 [memoryKey "a" (generateId 1000 [1%N])]) "a"
              (mkQuery (Some Decision) None (Some 2000) None) = Ok out
       /\ filter (has_id (generateId 2000 [2%N])) out
          = [VMemory (fullMemory "a" (Scenario.input Decision (9 # 10)%Q)
                                 (Scenario.at_ 2000 [2%N]))].
Proof.
  apply (@remember_then_recall learned_once "a" (Scenario.input Decision (9 # 10)%Q)
           (Scenario.at_ 2000 [2%N]) (mkQuery (Some Decision) None (Some 2000) None)
           [memoryKey "a" (generateId 1000 [1%N])]).
  - exact learned_once_reachable.
  - reflexivity.
  - unfold timer_lasts_ttl. simpl. lia.
  - reflexivity.
  - reflexivity.
  - intros k m H. vm_compute in H.
    destruct H as [H|[H|[]]]; [|discriminate H].
    injection H as _ <-. vm_compute. discriminate.
  - vm_compute. intros [H|[]]. discriminate H.
Defined.

(** When its own timer fires, the entry is gone: without a long-term tier
    [recall] no longer returns the memory. *)
Example recall_after_own_timer :
  recall (timer_fires one_memory (memoryKey "a" (call_id first_call))) "a" noQuery
  = Ok [].
Proof. reflexivity. Qed.

(** *** The filters of [recall] *)

Lemma MemoryType_eqb_eq (a b : MemoryType) : MemoryType_eqb a b = true <-> a = b.
Proof. destruct a, b; simpl; split; congruence. Qed.

(** What passing [matchesQuery] means: the [type] of the query, when given,
    is the value's type, and a [since], when given, is not after a [Date]
    timestamp (a timestamp that is a string passes every [since]). *)
Lemma matchesQuery_true (v : CacheValue) (query : Query) :
  matchesQuery v query = true <->
  (forall ty, q_type query = Some ty -> type_of v = Some ty)
  /\ (forall s ms, q_since query = Some s ->
        timestamp_of v = Some (DateObj ms) -> s <= ms).
Proof.
  unfold matchesQuery.
  match goal with
  | |- (if ?a then false else if ?b then false else true) = true <-> _ =>
      set (other_type := a); set (too_early := b)
  end.
  assert (H1 : other_type = false <->
               forall ty, q_type query = Some ty -> type_of v = Some ty).
  { unfold other_type.
    destruct (q_type query) as [ty|], (type_of v) as [ty'|]; split;
      try discriminate; try reflexivity; try (intros _ t E; discriminate E).
    - intros M t E. injection E as <-. apply negb_false_iff in M.
      apply MemoryType_eqb_eq in M. now rewrite M.
    - intros H. specialize (H ty eq_refl). injection H as ->.
      apply negb_false_iff. now apply MemoryType_eqb_eq.
    - intros H. specialize (H ty eq_refl). discriminate H. }
  assert (H2 : too_early = false <->
               forall s ms, q_since query = Some s ->
                 timestamp_of v = Some (DateObj ms) -> s <= ms).
  { unfold too_early, timestamp_lt.
    destruct (q_since query) as [s|]; [|split; [intros _ s ms E; discriminate E
                                                | reflexivity]].
    destruct (timestamp_of v) as [[ms|ms]|]; split; try reflexivity;
      try (intros _ s' ms' _ E; discriminate E).
    - intros L s' ms' E E'. injection E as <-. injection E' as <-.
      now apply Z.ltb_ge.
    - intros H. apply Z.ltb_ge. now apply H. }
  rewrite <- H1, <- H2.
  destruct other_type, too_early; intuition discriminate.
Qed.

Lemma In_firstn (A : Type) (n : nat) (l : list A) (x : A) :
  In x (firstn n l) -> In x l.
Proof.
  revert l. induction n as [|n IH]; intros [|y l]; simpl; try tauto.
  intros [E|H]; auto.
Qed.

Lemma queryShortTerm_matches (mgr : MemoryManager.t) (agentId : string)
    (query : Query) (v : CacheValue) :
  In v (queryShortTerm mgr agentId query) -> matchesQuery v query = true.
Proof.
  unfold queryShortTerm. destruct (redis mgr) as [r|].
  - intros H. apply in_flat_map in H. destruct H as (id & _ & H).
    destruct (Redis.get r _) as [data|]; [|contradiction].
    destruct (matchesQuery _ query) eqn:M; [|contradiction].
    destruct H as [<-|[]]. exact M.
  - intros H. apply scan_In in H. destruct H as (k & _ & K).
    apply andb_prop in K. tauto.
Qed.

Lemma queryLongTerm_matches (mgr : MemoryManager.t) (agentId : string)
    (query : Query) (v : CacheValue) :
  In v (queryLongTerm mgr agentId query) -> matchesQuery v query = true.
Proof.
  unfold queryLongTerm. destruct (supabase mgr) as [db|].
  - unfold Supabase.select_memories. destruct (Supabase.healthy db); [|contradiction].
    intros H. apply in_map_iff in H. destruct H as (row & <- & H).
    assert (F : In row
                  (filter
                     (fun r =>
                        String.eqb (Supabase.row_agent_id r) agentId
                        && Supabase.opt_filter (q_type query)
                             (fun t r => MemoryType_eqb (Supabase.row_memory_type r) t) r
                        && Supabase.opt_filter (q_since query)
                             (fun d r => d <=? Supabase.row_created_at r) r)
                     (Supabase.agent_memories db))).
    { destruct (match q_limit query with
                | Some n => if truthyZ n then Some n else None
                | None => None
                end); [now apply In_firstn in H | exact H]. }
    apply filter_In in F. destruct F as [_ F].
    apply andb_prop in F. destruct F as [F Fs].
    apply andb_prop in F. destruct F as [_ Ft].
    apply matchesQuery_true. split.
    + intros ty E. rewrite E in Ft. simpl in Ft.
      apply MemoryType_eqb_eq in Ft. simpl. now rewrite Ft.
    + intros s ms E Ets. rewrite E in Fs. simpl in Fs, Ets.
      injection Ets as <-. now apply Z.leb_le.
  - intros H. apply scan_In in H. destruct H as (k & _ & K).
    apply andb_prop in K. tauto.
Qed.

(** X6. What [recall] returns has passed its filters. When the semantic
    tier is not asked, every element of the returned list has the [type] of
    the query, if one is given, and an element whose timestamp is a [Date]
    is not earlier than [since], if one is given. In a reachable manager
    without a Redis client every element has a [Date] timestamp, so there
    [since] bounds all of them; a memory read back from Redis has a string
    for timestamp, and that passes every [since]. *)
Theorem recall_respects_query (mgr : MemoryManager.t) (agentId : string)
    (query : Query) (out : list CacheValue) :
  asks_semantic mgr query = false ->
  recall mgr agentId query = Ok out ->
  forall v, In v out ->
    (forall ty, q_type query = Some ty -> type_of v = Some ty)
    /\ (forall s ms, q_since query = Some s ->
          timestamp_of v = Some (DateObj ms) -> s <= ms)
    /\ (Reachable mgr -> redis mgr = None ->
        exists ms, timestamp_of v = Some (DateObj ms)
                   /\ forall s, q_since query = Some s -> s <= ms).
Proof.
  intros S E v H.
  unfold recall in E. rewrite gathered_without_semantic in E by exact S.
  cbn [bind] in E. apply Array_sort_perm in E.
  apply Permutation_sym in E. apply (Permutation_in _ E) in H.
  apply dedup_from_In in H. apply in_app_or in H.
  assert (M : matchesQuery v query = true).
  { destruct H as [H|H].
    - now apply queryShortTerm_matches in H.
    - unfold longTerm_part in H. destruct (_ && _); [|contradiction].
      now apply queryLongTerm_matches in H. }
  apply matchesQuery_true in M. destruct M as [Mt Ms].
  split; [exact Mt|]. split; [exact Ms|].
  intros Rch R. apply reachable_well_formed in Rch.
  assert (D : dated v).
  { assert (DS := queryShortTerm_dated agentId query Rch R).
    assert (DL := queryLongTerm_dated agentId query Rch).
    rewrite Forall_forall in DS, DL. destruct H as [H|H]; [auto|].
    unfold longTerm_part in H. destruct (_ && _); [auto | contradiction]. }
  destruct D as [ms D]. unfold getTime in D.
  destruct (timestamp_of v) as [[ms'|ms']|] eqn:T; try discriminate D.
  injection D as ->. exists ms. split; [reflexivity|].
  intros s Es. now apply (Ms s ms).
Qed.

Lemma three_memories_reachable : Reachable three_memories.
Proof. repeat apply reach_remember. apply reach_create. Qed.

Lemma recall_respects_query_witness :
  (forall ty, q_type (mkQuery (Some Decision) None (Some 1001) None) = Some ty ->
     type_of (VMemory (call_memory second_call)) = Some ty)
  /\ (forall s ms, q_since (mkQuery (Some Decision) None (Some 1001) None) = Some s ->
        timestamp_of (VMemory (call_memory second_call)) = Some (DateObj ms) ->
        s <= ms)
  /\ exists ms,
       timestamp_of (VMemory (call_memory second_call)) = Some (DateObj ms)
       /\ forall s, q_since (mkQuery (Some Decision) None (Some 1001) None) = Some s ->
            s <= ms.
Proof.
  destruct (@recall_respects_query three_memories "a"
              (mkQuery (Some Decision) None (Some 1001) None)
              [VMemory (call_memory second_call)] eq_refl eq_refl
              (VMemory (call_memory second_call)) (or_introl eq_refl))
    as (T & S & D).
  split; [exact T|]. split; [exact S|].
  exact (D three_memories_reachable eq_refl).
Defined.

(** With a Redis client [since] does not filter the short-term tier: a
    memory stored at [1000] comes back for [since = 5000]. *)
Example since_passes_memories_read_from_redis :
  recall (run (create (Scenario.with_redis 100) Redis.empty None) [first_call]) "a"
         (mkQuery None None (Some 5000) None)
  = Ok [read_back (call_memory first_call)].
Proof. reflexivity. Qed.

(** X7. Without a Redis client and without a long-term tier the [limit] of
    a query has no effect: [recall] returns the same for every [limit]. *)
Theorem recall_ignores_limit_in_process (mgr : MemoryManager.t) (agentId : string)
    (ty : option MemoryType) (since : option Z) (sessionId : option string)
    (limit limit' : option Z) :
  redis mgr = None ->
  longTerm (config mgr) = None ->
  recall mgr agentId (mkQuery ty limit since sessionId)
  = recall mgr agentId (mkQuery ty limit' since sessionId).
Proof.
  intros R L. unfold recall, gathered, queryShortTerm. rewrite R, L.
  cbn [is_some]. rewrite !andb_false_r. reflexivity.
Qed.

Lemma recall_ignores_limit_in_process_witness :
  recall three_memories "a" (mkQuery None (Some 2) None None)
  = recall three_memories "a" (mkQuery None None None None).
Proof.
  apply (@recall_ignores_limit_in_process three_memories "a" None None None
           (Some 2) None); reflexivity.
Defined.

(** *** The long-term tier *)

(** The Supabase client after [remember] is the one that [storeLongTerm]
    leaves, when a long-term tier is configured. *)
Lemma remember_supabase (mgr : MemoryManager.t) (agentId : string)
    (memory : MemoryInput) (env : Reading) :
  supabase (fst (remember mgr agentId memory env))
  = supabase (if is_some (longTerm (config mgr))
              then storeLongTerm mgr (fullMemory agentId memory env)
              else mgr).
Proof.
  unfold remember. cbn [fst]. fold (fullMemory agentId memory env).
  set (full := fullMemory agentId memory env).
  assert (S1 : supabase (storeShortTerm mgr full) = supabase mgr)
    by (unfold storeShortTerm; now destruct (redis mgr)).
  assert (C1 : config (storeShortTerm mgr full) = config mgr)
    by (unfold storeShortTerm; now destruct (redis mgr)).
  assert (S3 : forall m, supabase (storeSemanticMemory m full) = supabase m).
  { intros m. unfold storeSemanticMemory.
    now destruct (m_embedding full) as [[|q e]|]. }
  rewrite C1.
  assert (S2 : supabase (storeLongTerm (storeShortTerm mgr full) full)
               = supabase (storeLongTerm mgr full)).
  { unfold storeLongTerm. rewrite S1. destruct (supabase mgr); [|reflexivity].
    now destruct (Supabase.insert _ _). }
  destruct (is_some (longTerm (config mgr)));
    match goal with
    | |- context [if ?b then storeSemanticMemory _ _ else _] => destruct b
    end; now rewrite ?S3, ?S2, ?S1.
Qed.







(** *** The semantic tier *)

Lemma semantic_key_holds_record (k x : string) (v : CacheValue) :
  entry_ok k v -> Str.startsWith k ("semantic:" ++ x)%string = true ->
  exists e i ty c, v = VSemantic e i ty c.
Proof.
  destruct v as [m|e i ty c|f s]; simpl.
  - intros [_ [->| ->]]; discriminate.
  - eauto.
  - intros (a & p & ->). discriminate.
Qed.

Lemma semantic_loop_well_formed (entries : list (string * CacheValue)) (x : string) :
  (forall k v, In (k, v) entries -> entry_ok k v) ->
  semantic_loop entries ("semantic:" ++ x)%string
  = Ok (map snd
          (filter (fun kv => Str.startsWith (fst kv) ("semantic:" ++ x)%string
                             && is_pattern_record (snd kv))
                  entries)).
Proof.
  induction entries as [|[k v] entries IH]; intros ok; [reflexivity|].
  cbn [semantic_loop filter fst snd].
  rewrite IH by (intros k' v' H; apply ok; now right).
  destruct (Str.startsWith k ("semantic:" ++ x)%string) eqn:P; [|reflexivity].
  destruct (@semantic_key_holds_record k x v (ok k v (or_introl eq_refl)) P)
    as (e & i & ty & c & ->).
  cbn [metadata_type_is_pattern bind andb is_pattern_record].
  now destruct ty.
Qed.

(** X10. In every reachable manager [querySemanticMemory] returns a list,
    and the list holds exactly the cached semantic records of pattern
    memories under the semantic keys of the agent: it never throws and never
    returns the record of a memory of another type. *)
Theorem querySemanticMemory_returns_pattern_records (mgr : MemoryManager.t)
    (agentId : string) (query : Query) :
  Reachable mgr ->
  exists sem,
    querySemanticMemory mgr agentId query = Ok sem
    /\ forall v,
         In v sem <->
         exists k, In (k, v) (inMemoryCache mgr)
                   /\ Str.startsWith k ("semantic:" ++ agentId ++ ":")%string = true
                   /\ is_pattern_record v = true.
Proof.
  intros Rch. destruct (reachable_well_formed Rch) as [_ ok].
  unfold querySemanticMemory, JsMap.entries.
  rewrite semantic_loop_well_formed by exact ok.
  eexists. split; [reflexivity|]. intros v. rewrite in_map_iff. split.
  - intros ([k v'] & E & H). simpl in E. subst v'.
    apply filter_In in H. destruct H as [H K]. apply andb_prop in K.
    exists k. tauto.
  - intros (k & H & P & T). exists (k, v). split; [reflexivity|].
    apply filter_In. split; [exact H|]. cbn [fst snd]. now rewrite P, T.
Qed.

Lemma querySemanticMemory_returns_pattern_records_witness :
  exists sem,
    querySemanticMemory pattern_with_embedding "a" pattern_query = Ok sem
    /\ forall v,
         In v sem <->
         exists k, In (k, v) (inMemoryCache pattern_with_embedding)
                   /\ Str.startsWith k ("semantic:" ++ "a" ++ ":")%string = true
                   /\ is_pattern_record v = true.
Proof.
  apply (@querySemanticMemory_returns_pattern_records pattern_with_embedding "a"
           pattern_query).
  apply reach_remember, reach_create.
Defined.



(** *** More on [forget] *)

Lemma matchesForgetCriteria_not_a_memory (v : CacheValue) (criteria : Criteria) :
  not_a_memory v -> matchesForgetCriteria v criteria = false.
Proof.
  destruct v as [m|e i ty c|f s]; [contradiction| |]; intros _;
    unfold matchesForgetCriteria; simpl;
    destruct (olderThan criteria), (c_type criteria),
      (confidenceLessThan criteria) as [c'|];
    try reflexivity; simpl; now rewrite andb_false_r.
Qed.

(** X12. Without a Supabase client, in every reachable manager, [forget]
    removes from the cache exactly the entries whose key contains the agent
    id and whose value meets one of the criteria, keeps the other entries in
    their order, and returns the number of entries removed. *)
Theorem forget_in_process_exact (mgr : MemoryManager.t) (agentId : string)
    (criteria : Criteria) :
  Reachable mgr ->
  supabase mgr = None ->
  forget mgr agentId criteria
  = (mk (config mgr) (redis mgr) None
        (filter (fun kv => negb (Str.includes (fst kv) agentId
                                 && matchesForgetCriteria (snd kv) criteria))
                (inMemoryCache mgr)),
     Z.of_nat (length (filter (fun kv => Str.includes (fst kv) agentId
                                         && matchesForgetCriteria (snd kv) criteria)
                              (inMemoryCache mgr)))).
Proof.
  intros Rch S. destruct (reachable_well_formed Rch) as [nd _].
  unfold forget. rewrite S, forget_inMemory_spec by exact nd. reflexivity.
Qed.

Lemma forget_in_process_exact_witness :
  forget three_memories "a" (mkCriteria None (Some Decision) None)
  = (mk (config three_memories) (redis three_memories) None
        (filter (fun kv => negb (Str.includes (fst kv) "a"
                                 && matchesForgetCriteria (snd kv)
                                      (mkCriteria None (Some Decision) None)))
                (inMemoryCache three_memories)),
     Z.of_nat (length (filter (fun kv => Str.includes (fst kv) "a"
                                         && matchesForgetCriteria (snd kv)
                                              (mkCriteria None (Some Decision) None))
                              (inMemoryCache three_memories)))).
Proof.
  apply (@forget_in_process_exact three_memories "a"
           (mkCriteria None (Some Decision) None)).
  - repeat apply reach_remember. apply reach_create.
  - reflexivity.
Defined.

(** X13. [forget] never removes pattern counters or semantic records, and
    never removes an entry whose key does not contain the agent id: in every
    reachable manager such an entry is still in the cache afterwards,
    whatever the criteria. *)
Theorem forget_spares (mgr : MemoryManager.t) (agentId : string)
    (criteria : Criteria) (k : string) (v : CacheValue) :
  Reachable mgr ->
  In (k, v) (inMemoryCache mgr) ->
  not_a_memory v \/ Str.includes k agentId = false ->
  In (k, v) (inMemoryCache (fst (forget mgr agentId criteria))).
Proof.
  intros Rch H Spare. destruct (reachable_well_formed Rch) as [nd _].
  unfold forget.
  destruct (match supabase mgr with
            | Some db => let (db', n) := forget_longTerm db agentId criteria in
                         (Some db', n)
            | None => (None, 0)
            end) as [db n].
  rewrite forget_inMemory_spec by exact nd. cbn [fst inMemoryCache].
  apply filter_In. split; [exact H|]. unfold forgets. cbn [fst snd].
  destruct Spare as [N|I].
  - now rewrite (matchesForgetCriteria_not_a_memory v criteria N), andb_false_r.
  - now rewrite I.
Qed.

Lemma forget_spares_witness :
  In (patternKey "a" "greeting", VPattern 1 1)
     (inMemoryCache (fst (forget learned_once "a"
                            (mkCriteria (Some 5000) (Some Pattern) (Some 1%Q))))).
Proof.
  apply (@forget_spares learned_once "a"
           (mkCriteria (Some 5000) (Some Pattern) (Some 1%Q))
           (patternKey "a" "greeting") (VPattern 1 1)).
  - exact learned_once_reachable.
  - vm_compute. right. now left.
  - left. exact I.
Defined.

(** X14. The long-term pass of [forget] is scoped to the agent: with a
    Supabase client, a row of another agent is still in the table
    afterwards, no row appears, and the pattern table is not touched,
    whatever the criteria. *)
Theorem forget_longTerm_scoped (mgr : MemoryManager.t) (db : Supabase.t)
    (agentId : string) (criteria : Criteria) :
  supabase mgr = Some db ->
  exists db',
    supabase (fst (forget mgr agentId criteria)) = Some db'
    /\ Supabase.agent_patterns db' = Supabase.agent_patterns db
    /\ (forall row, In row (Supabase.agent_memories db') ->
          In row (Supabase.agent_memories db))
    /\ (forall row, In row (Supabase.agent_memories db) ->
          Supabase.row_agent_id row <> agentId ->
          In row (Supabase.agent_memories db')).
Proof.
  intros S. unfold forget. rewrite S.
  unfold forget_longTerm, Supabase.delete_memories.
  destruct (Supabase.healthy db);
    destruct (forget_inMemory _ _ _ _); cbn [fst supabase];
    eexists; (split; [reflexivity|]); cbn [Supabase.agent_patterns Supabase.agent_memories];
    (split; [reflexivity|]); split; try tauto.
  - intros row H. apply filter_In in H. tauto.
  - intros row H ne. apply filter_In. split; [exact H|].
    unfold Supabase.delete_matches.
    apply String.eqb_neq in ne. now rewrite ne.
Qed.

Lemma forget_longTerm_scoped_witness :
  exists db',
    supabase (fst (forget stored_in_both "b" (mkCriteria None None None))) = Some db'
    /\ Supabase.agent_patterns db'
       = Supabase.agent_patterns (Supabase.mk [unsure_row] [] true)
    /\ (forall row, In row (Supabase.agent_memories db') ->
          In row (Supabase.agent_memories (Supabase.mk [unsure_row] [] true)))
    /\ (forall row, In row (Supabase.agent_memories (Supabase.mk [unsure_row] [] true)) ->
          Supabase.row_agent_id row <> "b" ->
          In row (Supabase.agent_memories db')).
Proof.
  apply (@forget_longTerm_scoped stored_in_both (Supabase.mk [unsure_row] [] true)
           "b" (mkCriteria None None None)).
  reflexivity.
Defined.

Lemma filter_twice (A : Type) (p : A -> bool) (l : list A) :
  filter p (filter p l) = filter p l.
Proof.
  induction l as [|x l IH]; simpl; [reflexivity|].
  destruct (p x) eqn:P; simpl; now rewrite ?P, IH.
Qed.

Lemma filter_of_rest (A : Type) (p : A -> bool) (l : list A) :
  filter p (filter (fun x => negb (p x)) l) = [].
Proof.
  induction l as [|x l IH]; simpl; [reflexivity|].
  destruct (p x) eqn:P; simpl; now rewrite ?P, IH.
Qed.

Lemma filter_nothing (A : Type) (p : A -> bool) (l : list A) :
  (forall x, p x = false) -> filter p l = [].
Proof.
  intros N. induction l as [|x l IH]; simpl; [reflexivity|]. now rewrite N.
Qed.

Lemma filter_everything (A : Type) (p : A -> bool) (l : list A) :
  (forall x, p x = true) -> filter p l = l.
Proof.
  intros N. induction l as [|x l IH]; simpl; [reflexivity|]. now rewrite N, IH.
Qed.

(** The two passes of [forget] side by side. *)
Lemma forget_shape (mgr : MemoryManager.t) (agentId : string) (criteria : Criteria) :
  NoDup (JsMap.keys (inMemoryCache mgr)) ->
  forget mgr agentId criteria
  = (mk (config mgr) (redis mgr)
        (match supabase mgr with
         | Some db => Some (fst (forget_longTerm db agentId criteria))
         | None => None
         end)
        (filter (fun kv => negb (forgets agentId criteria kv)) (inMemoryCache mgr)),
     match supabase mgr with
     | Some db => snd (forget_longTerm db agentId criteria)
     | None => 0
     end
     + Z.of_nat (length (filter (forgets agentId criteria) (inMemoryCache mgr)))).
Proof.
  intros nd. unfold forget. destruct (supabase mgr) as [db|].
  - destruct (forget_longTerm db agentId criteria) as [db' n].
    now rewrite forget_inMemory_spec by exact nd.
  - now rewrite forget_inMemory_spec by exact nd.
Qed.

Lemma forget_longTerm_twice (db : Supabase.t) (agentId : string) (criteria : Criteria) :
  forget_longTerm (fst (forget_longTerm db agentId criteria)) agentId criteria
  = (fst (forget_longTerm db agentId criteria), 0).
Proof.
  unfold forget_longTerm, Supabase.delete_memories.
  destruct (Supabase.healthy db) eqn:H; cbn [fst Supabase.healthy Supabase.agent_memories
                                             Supabase.agent_patterns].
  - rewrite ?H. rewrite filter_twice, filter_of_rest. reflexivity.
  - rewrite ?H. reflexivity.
Qed.

(** X15. [forget] is idempotent: in every reachable manager, a second call
    with the same agent and criteria changes nothing and returns [0]. *)
Theorem forget_twice (mgr : MemoryManager.t) (agentId : string)
    (criteria : Criteria) :
  Reachable mgr ->
  forget (fst (forget mgr agentId criteria)) agentId criteria
  = (fst (forget mgr agentId criteria), 0).
Proof.
  intros Rch.
  destruct (reachable_well_formed Rch) as [nd _].
  destruct (reachable_well_formed (reach_forget agentId criteria Rch)) as [nd1 _].
  rewrite (forget_shape (fst (forget mgr agentId criteria)) agentId criteria nd1).
  rewrite (forget_shape mgr agentId criteria nd).
  cbn [fst config redis supabase inMemoryCache].
  rewrite filter_twice, filter_of_rest.
  destruct (supabase mgr) as [db|]; [rewrite forget_longTerm_twice|]; reflexivity.
Qed.

Lemma forget_twice_witness :
  forget (fst (forget stored_in_both "a" unsure)) "a" unsure
  = (fst (forget stored_in_both "a" unsure), 0).
Proof.
  apply (@forget_twice stored_in_both "a" unsure).
  repeat apply reach_remember. apply reach_create.
Defined.

(** X16. [forget] with no criteria: the in-process pass removes nothing,
    while the long-term pass, with a Supabase client whose calls succeed,
    removes every row of the agent and only those; the returned count is the
    number of the agent's rows, and [0] without a Supabase client. *)
Theorem forget_without_criteria (mgr : MemoryManager.t) (agentId : string) :
  Reachable mgr ->
  inMemoryCache (fst (forget mgr agentId (mkCriteria None None None)))
  = inMemoryCache mgr
  /\ (supabase mgr = None ->
      snd (forget mgr agentId (mkCriteria None None None)) = 0)
  /\ (forall db,
        supabase mgr = Some db -> Supabase.healthy db = true ->
        snd (forget mgr agentId (mkCriteria None None None))
        = Z.of_nat (length (filter (fun r => String.eqb (Supabase.row_agent_id r) agentId)
                                   (Supabase.agent_memories db)))
        /\ exists db',
             supabase (fst (forget mgr agentId (mkCriteria None None None))) = Some db'
             /\ Supabase.agent_memories db'
                = filter (fun r => negb (String.eqb (Supabase.row_agent_id r) agentId))
                         (Supabase.agent_memories db)).
Proof.
  intros Rch. destruct (reachable_well_formed Rch) as [nd _].
  rewrite (forget_shape mgr agentId (mkCriteria None None None) nd).
  cbn [fst snd inMemoryCache supabase].
  assert (N : forall kv, forgets agentId (mkCriteria None None None) kv = false).
  { intros kv. unfold forgets, matchesForgetCriteria. simpl. apply andb_false_r. }
  assert (F0 : filter (forgets agentId (mkCriteria None None None)) (inMemoryCache mgr)
               = []).
  { apply filter_nothing. exact N. }
  assert (F1 : filter (fun kv => negb (forgets agentId (mkCriteria None None None) kv))
                      (inMemoryCache mgr)
               = inMemoryCache mgr).
  { apply filter_everything. intros kv. now rewrite N. }
  rewrite F0, F1. split; [reflexivity|]. split.
  - intros ->. reflexivity.
  - intros db -> H. unfold forget_longTerm, Supabase.delete_memories. rewrite H.
    cbn [fst snd Supabase.agent_memories olderThan c_type confidenceLessThan].
    assert (P : forall r, Supabase.delete_matches agentId None None None r
                          = String.eqb (Supabase.row_agent_id r) agentId).
    { intros r. unfold Supabase.delete_matches. simpl. now rewrite !andb_true_r. }
    split.
    + rewrite length_map, (filter_ext _ _ P). cbn [length]. lia.
    + eexists. split; [reflexivity|]. cbn [Supabase.agent_memories].
      apply filter_ext. intros r. now rewrite P.
Qed.

Lemma forget_without_criteria_witness :
  inMemoryCache (fst (forget stored_in_both "a" (mkCriteria None None None)))
  = inMemoryCache stored_in_both
  /\ snd (forget stored_in_both "a" (mkCriteria None None None)) = 1.
Proof.
  destruct (@forget_without_criteria stored_in_both "a") as (C & _ & L).
  - repeat apply reach_remember. apply reach_create.
  - split; [exact C|].
    destruct (L (Supabase.mk [unsure_row] [] true) eq_refl eq_refl) as [N _].
    exact N.
Defined.

(** *** More on [learn] *)



Lemma remember_keeps_patterns (mgr : MemoryManager.t) (agentId : string)
    (memory : MemoryInput) (env : Reading) (a p : string) :
  counters (fst (remember mgr agentId memory env)) a p = counters mgr a p
  /\ pattern_rows (fst (remember mgr agentId memory env)) = pattern_rows mgr.
Proof.
  unfold remember. cbn [fst].
  set (full := mkMemory _ _ _ _ _ _ _ _).
  assert (K1 : forall m, counters (storeShortTerm m full) a p = counters m a p
                         /\ pattern_rows (storeShortTerm m full) = pattern_rows m).
  { intros m. unfold counters, pattern_rows, storeShortTerm.
    destruct (redis m); cbn [inMemoryCache supabase]; [now split|].
    rewrite get_set_other by discriminate. now split. }
  assert (K2 : forall m, counters (storeLongTerm m full) a p = counters m a p
                         /\ pattern_rows (storeLongTerm m full) = pattern_rows m).
  { intros m. unfold counters, pattern_rows, storeLongTerm.
    destruct (supabase m) as [db|].
    - unfold Supabase.insert. destruct (_ && _); now split.
    - cbn [inMemoryCache supabase].
      rewrite get_set_other by discriminate. now split. }
  assert (K3 : forall m, counters (storeSemanticMemory m full) a p = counters m a p
                         /\ pattern_rows (storeSemanticMemory m full) = pattern_rows m).
  { intros m. unfold counters, pattern_rows, storeSemanticMemory.
    destruct (m_embedding full) as [[|q e]|]; cbn [inMemoryCache supabase];
      try now split.
    rewrite get_set_other by discriminate. now split. }
  repeat match goal with
         | |- context [if ?b then _ else _] => destruct b
         end;
    repeat match goal with
           | |- context [storeSemanticMemory ?m full] =>
               rewrite (proj1 (K3 m)), (proj2 (K3 m))
           | |- context [storeLongTerm ?m full] =>
               rewrite (proj1 (K2 m)), (proj2 (K2 m))
           | |- context [storeShortTerm ?m full] =>
               rewrite (proj1 (K1 m)), (proj2 (K1 m))
           end; now split.
Qed.

(** X18. A learning event without a signature, or with the empty string as
    signature, stores its pattern memory and leaves every pattern aggregate
    as it was: the in-process counters of every agent and signature and the
    rows of the pattern table. *)
Theorem learn_without_pattern (mgr : MemoryManager.t) (agentId : string)
    (outcome : Outcome) (env : LearnReading) :
  pattern outcome = None \/ pattern outcome = Some "" ->
  learn mgr agentId outcome env
  = fst (remember mgr agentId (learned_input agentId outcome env)
                  (remember_reading env))
  /\ (forall a p, counters (learn mgr agentId outcome env) a p = counters mgr a p)
  /\ pattern_rows (learn mgr agentId outcome env) = pattern_rows mgr.
Proof.
  intros P.
  assert (E : learn mgr agentId outcome env
              = fst (remember mgr agentId (learned_input agentId outcome env)
                              (remember_reading env))).
  { unfold learn. fold (learned_input agentId outcome env).
    destruct (remember mgr agentId _ _) as [mgr' id'].
    destruct P as [-> | ->]; reflexivity. }
  rewrite E. split; [reflexivity|]. split.
  - intros a p. apply remember_keeps_patterns.
  - apply (remember_keeps_patterns mgr agentId _ _ "" "").
Qed.

Lemma learn_without_pattern_witness :
  learn learned_once "a" (mkOutcome "t2" true (Some "") (1 # 2)%Q)
        (Scenario.learning 2000 [2%N])
  = fst (remember learned_once "a"
           (learned_input "a" (mkOutcome "t2" true (Some "") (1 # 2)%Q)
                          (Scenario.learning 2000 [2%N]))
           (remember_reading (Scenario.learning 2000 [2%N])))
  /\ (forall a p,
        counters (learn learned_once "a" (mkOutcome "t2" true (Some "") (1 # 2)%Q)
                        (Scenario.learning 2000 [2%N])) a p
        = counters learned_once a p)
  /\ pattern_rows (learn learned_once "a" (mkOutcome "t2" true (Some "") (1 # 2)%Q)
                         (Scenario.learning 2000 [2%N]))
     = pattern_rows learned_once.
Proof.
  apply (@learn_without_pattern learned_once "a"
           (mkOutcome "t2" true (Some "") (1 # 2)%Q) (Scenario.learning 2000 [2%N])).
  right. reflexivity.
Defined.

Lemma scan_set_ignored (cache : JsMap.t CacheValue) (k : string) (v : CacheValue)
    (keep : string -> CacheValue -> bool) :
  (forall v', keep k v' = false) ->
  scan (JsMap.set cache k v) keep = scan cache keep.
Proof.
  intros N. unfold scan, JsMap.entries.
  induction cache as [|[k0 v0] cache IH]; simpl.
  - now rewrite N.
  - destruct (String.eqb_spec k0 k) as [->|ne]; simpl.
    + now rewrite !N.
    + destruct (keep k0 v0); simpl; now rewrite IH.
Qed.

Lemma semantic_loop_set_ignored (entries : JsMap.t CacheValue) (k : string)
    (v : CacheValue) (prefix : string) :
  Str.startsWith k prefix = false ->
  semantic_loop (JsMap.set entries k v) prefix = semantic_loop entries prefix.
Proof.
  intros N. induction entries as [|[k0 v0] entries IH]; simpl.
  - now rewrite N.
  - destruct (String.eqb_spec k0 k) as [->|ne]; simpl.
    + now rewrite !N.
    + now rewrite IH.
Qed.

(** [updatePattern] changes nothing that [recall] reads. *)
Lemma recall_after_updatePattern (mgr : MemoryManager.t) (agentId p : string)
    (ok : bool) (now : Z) (a : string) (query : Query) :
  recall (updatePattern mgr agentId p ok now) a query = recall mgr a query.
Proof.
  unfold recall. f_equal. unfold updatePattern.
  destruct (supabase mgr) as [db|] eqn:S.
  - unfold Supabase.upsert_pattern. destruct (Supabase.healthy db) eqn:H.
    + unfold gathered, queryShortTerm, queryLongTerm, querySemanticMemory.
      cbn [config redis supabase inMemoryCache]. rewrite S.
      unfold Supabase.select_memories.
      cbn [Supabase.healthy Supabase.agent_memories]. now rewrite H.
    + unfold gathered, queryShortTerm, queryLongTerm, querySemanticMemory.
      cbn [config redis supabase inMemoryCache]. now rewrite S.
  - destruct (match JsMap.get _ _ with Some (VPattern f s) => (f, s) | _ => (0, 0) end)
      as [f s].
    unfold gathered, queryShortTerm, queryLongTerm, querySemanticMemory, JsMap.entries.
    cbn [config redis supabase inMemoryCache]. rewrite S.
    rewrite semantic_loop_set_ignored by reflexivity.
    rewrite !scan_set_ignored by (intros v'; reflexivity).
    reflexivity.
Qed.

Lemma timer_fires_updatePattern (mgr : MemoryManager.t) (agentId p : string)
    (ok : bool) (now : Z) (k : string) :
  k <> patternKey agentId p ->
  timer_fires (updatePattern mgr agentId p ok now) k
  = updatePattern (timer_fires mgr k) agentId p ok now.
Proof.
  intros ne. unfold updatePattern, timer_fires.
  cbn [config redis supabase inMemoryCache].
  destruct (supabase mgr) as [db|] eqn:S.
  - destruct (Supabase.upsert_pattern _ _ _ _ _ _). reflexivity.
  - rewrite get_delete_other by (intros E; now apply ne).
    destruct (match JsMap.get _ _ with Some (VPattern f s) => (f, s) | _ => (0, 0) end)
      as [f s].
    cbn [config redis supabase inMemoryCache].
    now rewrite delete_set_other.
Qed.

Lemma timers_fire_updatePattern (mgr : MemoryManager.t) (agentId p : string)
    (ok : bool) (now : Z) (fired : list string) :
  memory_keys fired ->
  timers_fire (updatePattern mgr agentId p ok now) fired
  = updatePattern (timers_fire mgr fired) agentId p ok now.
Proof.
  intros F. revert mgr. induction F as [|k fired (a & i & ->) _ IH]; intros mgr.
  - reflexivity.
  - simpl. rewrite timer_fires_updatePattern by discriminate. apply IH.
Qed.

(** X19. From any reachable manager without a Redis client and without a
    semantic tier, with a [ttl] whose milliseconds [setTimeout] keeps: the
    memory of a learning event gets a timer of [ttl] seconds on its key, and
    as long as no timer of that key has fired, whatever timers of other
    short-term entries have fired, a [recall] of the agent's pattern
    memories after [learn] returns the memory of the event exactly once,
    with type pattern and the event's transaction id, success flag and
    signature as content, provided no cached memory already has the
    generated id. *)
Theorem learn_then_recall (mgr : MemoryManager.t) (agentId : string)
    (outcome : Outcome) (env : LearnReading) (limit : option Z)
    (sessionId : option string) (fired : list string) :
  Reachable mgr ->
  redis mgr = None ->
  timer_lasts_ttl (config mgr) ->
  semantic (config mgr) = None ->
  fresh_id mgr (generateId (id_clock (remember_reading env))
                           (random36 (remember_reading env))) ->
  memory_keys fired ->
  ~ In (memoryKey agentId (generateId (id_clock (remember_reading env))
                                      (random36 (remember_reading env)))) fired ->
  storeShortTerm_timer mgr
    (fullMemory agentId (learned_input agentId outcome env) (remember_reading env))
  = Some (shortTerm_ttl (config mgr) * 1000,
          memoryKey agentId (generateId (id_clock (remember_reading env))
                                        (random36 (remember_reading env))))
  /\ exists out,
       recall (timers_fire (learn mgr agentId outcome env) fired) agentId
              (mkQuery (Some Pattern) limit None sessionId) = Ok out
       /\ filter (has_id (generateId (id_clock (remember_reading env))
                                     (random36 (remember_reading env)))) out
          = [VMemory (fullMemory agentId (learned_input agentId outcome env)
                                 (remember_reading env))].
Proof.
  intros Rch R T S fresh F own.
  split; [now apply storeShortTerm_timer_ttl|].
  assert (E : recall (timers_fire (learn mgr agentId outcome env) fired) agentId
                     (mkQuery (Some Pattern) limit None sessionId)
              = recall (timers_fire
                          (fst (remember mgr agentId
                                         (learned_input agentId outcome env)
                                         (remember_reading env))) fired)
                       agentId (mkQuery (Some Pattern) limit None sessionId)).
  { unfold learn. fold (learned_input agentId outcome env).
    destruct (remember mgr agentId _ _) as [mgr' id']. cbn [fst].
    destruct (pattern outcome) as [p|]; [|reflexivity].
    destruct (negb _); [|reflexivity].
    rewrite timers_fire_updatePattern by exact F.
    apply recall_after_updatePattern. }
  rewrite E. apply recall_before_own_timer; auto.
  unfold asks_semantic. rewrite S. apply andb_false_r.
Qed.

Lemma learn_then_recall_witness :
  storeShortTerm_timer learned_once
    (fullMemory "a"
       (learned_input "a" (Scenario.greeting false) (Scenario.learning 2000 [2%N]))
       (Scenario.at_ 2000 [2%N]))
  = Some (3600000, memoryKey "a" (generateId 2000 [2%N]))
  /\ exists out,
       recall (timers_fire
                 (learn learned_once "a" (Scenario.greeting false)
                        (Scenario.learning 2000 [2%N]))
                 [memoryKey "a" (generateId 1000 [1%N])]) "a"
              (mkQuery (Some Pattern) None None None) = Ok out
       /\ filter (has_id (generateId 2000 [2%N])) out
          = [VMemory (fullMemory "a"
                        (learned_input "a" (Scenario.greeting false)
                                       (Scenario.learning 2000 [2%N]))
                        (Scenario.at_ 2000 [2%N]))].
Proof.
  apply (@learn_then_recall learned_once "a" (Scenario.greeting false)
           (Scenario.learning 2000 [2%N]) None None
           [memoryKey "a" (generateId 1000 [1%N])]).
  - exact learned_once_reachable.
  - reflexivity.
  - unfold timer_lasts_ttl. simpl. lia.
  - reflexivity.
  - intros k m H. vm_compute in H.
    destruct H as [H|[H|[]]]; [|discriminate H].
    injection H as _ <-. vm_compute. discriminate.
  - constructor; [|constructor]. now exists "a", (generateId 1000 [1%N]).
  - vm_compute. intros [H|[]]. discriminate H.
Defined.

(** *** [getStats] *)

Lemma filter_nothing_in (A : Type) (p : A -> bool) (l : list A) :
  (forall x, In x l -> p x = false) -> filter p l = [].
Proof.
  induction l as [|x l IH]; simpl; intros N; [reflexivity|].
  rewrite (N x (or_introl eq_refl)). apply IH. intros y H. apply N. now right.
Qed.

(** X20. For an agent without pattern rows, and so for every agent of a
    manager without a Supabase client, [getStats] reports no patterns and an
    average confidence of [0]: the division by the number of rows is not
    made. *)
Theorem getStats_without_patterns (mgr : MemoryManager.t) (agentId : string) :
  (forall row, In row (pattern_rows mgr) -> Supabase.pat_agent_id row <> agentId) ->
  patterns (getStats mgr agentId) = 0
  /\ avgConfidence (getStats mgr agentId) = 0%Q.
Proof.
  unfold pattern_rows, getStats. intros N.
  destruct (supabase mgr) as [db|]; [|now split].
  unfold Supabase.select_pattern_confidence.
  destruct (Supabase.healthy db); [|now split].
  rewrite filter_nothing_in; [now split|].
  intros row H. apply String.eqb_neq. now apply N.
Qed.

Lemma getStats_without_patterns_witness :
  patterns (getStats stored_in_both "a") = 0
  /\ avgConfidence (getStats stored_in_both "a") = 0%Q.
Proof.
  apply (@getStats_without_patterns stored_in_both "a").
  intros row [].
Defined.

(** X21. With a Supabase client whose calls succeed, [getStats] reports as
    [longTermCount] the number of memories that the long-term query without
    filter returns for the agent, and as [patterns] the number of the
    agent's pattern rows. *)
Theorem getStats_with_supabase (mgr : MemoryManager.t) (db : Supabase.t)
    (agentId : string) :
  supabase mgr = Some db ->
  Supabase.healthy db = true ->
  longTermCount (getStats mgr agentId)
  = Z.of_nat (length (queryLongTerm mgr agentId noQuery))
  /\ patterns (getStats mgr agentId)
     = Z.of_nat (length (filter (fun r => String.eqb (Supabase.pat_agent_id r) agentId)
                                (pattern_rows mgr))).
Proof.
  intros S H. unfold getStats, queryLongTerm, pattern_rows. rewrite S.
  unfold Supabase.count_memories, Supabase.select_pattern_confidence,
    Supabase.select_memories. rewrite H. cbn [noQuery q_type q_since q_limit].
  assert (Fm : filter (fun r => String.eqb (Supabase.row_agent_id r) agentId
                                && Supabase.opt_filter None
                                     (fun t r => MemoryType_eqb (Supabase.row_memory_type r) t) r
                                && Supabase.opt_filter None
                                     (fun d r => d <=? Supabase.row_created_at r) r)
                      (Supabase.agent_memories db)
               = filter (fun r => String.eqb (Supabase.row_agent_id r) agentId)
                        (Supabase.agent_memories db)).
  { apply filter_ext. intros r. simpl. now rewrite !andb_true_r. }
  rewrite Fm, (length_map memory_of_row).
  set (rows := filter (fun r => String.eqb (Supabase.pat_agent_id r) agentId)
                      (Supabase.agent_patterns db)).
  destruct (map Supabase.pat_confidence rows) as [|q data] eqn:E.
  - assert (L : length rows = 0%nat)
      by (rewrite <- (length_map Supabase.pat_confidence), E; reflexivity).
    rewrite L. cbn [longTermCount patterns]. split; reflexivity.
  - assert (L : length rows = length (q :: data))
      by (rewrite <- (length_map Supabase.pat_confidence), E; reflexivity).
    rewrite L. cbn [longTermCount patterns]. split; reflexivity.
Qed.

(** Two learning events for one signature: two memories, one pattern row. *)
Lemma getStats_with_supabase_witness :
  longTermCount (getStats (learned_twice Scenario.with_supabase (Some Supabase.empty)) "a")
  = Z.of_nat (length (queryLongTerm
                        (learned_twice Scenario.with_supabase (Some Supabase.empty))
                        "a" noQuery))
  /\ patterns (getStats (learned_twice Scenario.with_supabase (Some Supabase.empty)) "a")
     = Z.of_nat (length (filter (fun r => String.eqb (Supabase.pat_agent_id r) "a")
                                (pattern_rows
                                   (learned_twice Scenario.with_supabase
                                                  (Some Supabase.empty))))).
Proof.
  apply (@getStats_with_supabase
           (learned_twice Scenario.with_supabase (Some Supabase.empty))
           (match supabase (learned_twice Scenario.with_supabase (Some Supabase.empty)) with
            | Some db => db
            | None => Supabase.empty
            end) "a");
    reflexivity.
Defined.

Example getStats_after_two_learning_events :
  longTermCount (getStats (learned_twice Scenario.with_supabase (Some Supabase.empty)) "a")
  = 2
  /\ patterns (getStats (learned_twice Scenario.with_supabase (Some Supabase.empty)) "a")
     = 1.
Proof. split; reflexivity. Qed.

(** *** [deduplicateMemories] *)

Lemma seen_has_cons (i j : option string) (seen : list (option string)) :
  seen_has (j :: seen) i = option_string_eqb i j || seen_has seen i.
Proof. reflexivity. Qed.

Lemma dedup_from_unseen (seen : list (option string)) (l : list CacheValue)
    (v : CacheValue) :
  In v (dedup_from seen l) -> seen_has seen (id_of v) = false.
Proof.
  revert seen. induction l as [|x l IH]; intros seen; simpl; [tauto|].
  destruct (seen_has seen (id_of x)) eqn:Sx; [apply IH|].
  intros [<-|H]; [exact Sx|].
  apply IH in H. rewrite seen_has_cons in H.
  apply orb_false_iff in H. tauto.
Qed.

Lemma dedup_from_NoDup (seen : list (option string)) (l : list CacheValue) :
  NoDup (map id_of (dedup_from seen l)).
Proof.
  revert seen. induction l as [|x l IH]; intros seen; simpl; [constructor|].
  destruct (seen_has seen (id_of x)); [apply IH|].
  simpl. constructor; [|apply IH].
  intros H. apply in_map_iff in H. destruct H as (v & E & H).
  apply dedup_from_unseen in H. rewrite seen_has_cons, E in H.
  now rewrite option_string_eqb_refl in H.
Qed.

Lemma dedup_from_fixed (seen : list (option string)) (l : list CacheValue) :
  NoDup (map id_of l) ->
  (forall v, In v l -> seen_has seen (id_of v) = false) ->
  dedup_from seen l = l.
Proof.
  revert seen. induction l as [|x l IH]; intros seen nd U; simpl; [reflexivity|].
  inversion nd as [|? ? notin nd']; subst.
  rewrite (U x (or_introl eq_refl)). f_equal. apply IH; [exact nd'|].
  intros v H. rewrite seen_has_cons, (U v (or_intror H)), orb_false_r.
  apply not_true_is_false. intros T. apply option_string_eqb_eq in T.
  apply notin. rewrite <- T. now apply in_map.
Qed.

(** X22. [deduplicateMemories] returns elements of its argument with
    pairwise distinct [id]s, where a missing [id] counts as one id (at most
    one value without an [id] is kept); applied to its own result it changes
    nothing. *)
Theorem deduplicateMemories_distinct (memories : list CacheValue) :
  NoDup (map id_of (deduplicateMemories memories))
  /\ (forall v, In v (deduplicateMemories memories) -> In v memories)
  /\ deduplicateMemories (deduplicateMemories memories)
     = deduplicateMemories memories.
Proof.
  unfold deduplicateMemories. split; [apply dedup_from_NoDup|].
  split; [intros v; apply dedup_from_In|].
  apply dedup_from_fixed; [apply dedup_from_NoDup | reflexivity].
Qed.

(** *** The short-term tier on Redis *)


Lemma list_at_ltrim (r : Redis.t) (k : string) (start stop : Z) :
  Redis.list_at (Redis.ltrim r k start stop) k
  = Redis.range (Redis.list_at r k) start stop.
Proof.
  unfold Redis.ltrim. unfold Redis.list_at at 1. cbn [Redis.lists].
  now rewrite get_set_same.
Qed.

Lemma list_at_lpush (r : Redis.t) (k v : string) :
  Redis.list_at (Redis.lpush r k v) k = v :: Redis.list_at r k.
Proof.
  unfold Redis.lpush. unfold Redis.list_at at 1. cbn [Redis.lists].
  now rewrite get_set_same.
Qed.

(** X23. With a Redis client, a [ttl] that [SETEX] accepts (positive, at
    most [2^31 - 1] seconds), and non-negative
    [maxItems || 100] and [limit || 10]: after [remember] the short-term
    query for the agent returns the new memory first, read back from its
    JSON text: the fields are as stored except that the timestamp is the
    ISO string of the stored instant and that a [Date] at any depth of
    [content] and [metadata] is its ISO string, for every query that such a
    memory passes. *)
Theorem remember_then_queryShortTerm_redis (mgr : MemoryManager.t) (r : Redis.t)
    (agentId : string) (memory : MemoryInput) (env : Reading) (query : Query) :
  redis mgr = Some r ->
  0 < shortTerm_ttl (config mgr) <= 2147483647 ->
  0 <= number_or (shortTerm_maxItems (config mgr)) 100 ->
  0 <= number_or (q_limit query) 10 ->
  matchesQuery
    (VMemory (mkMemory (generateId (id_clock env) (random36 env)) agentId
                       (IsoString (date_clock env)) (in_type memory)
                       (toJSON (in_content memory)) (in_confidence memory)
                       (in_embedding memory) (option_map toJSON (in_metadata memory))))
    query = true ->
  exists older,
    queryShortTerm (fst (remember mgr agentId memory env)) agentId query
    = VMemory (mkMemory (generateId (id_clock env) (random36 env)) agentId
                        (IsoString (date_clock env)) (in_type memory)
                        (toJSON (in_content memory)) (in_confidence memory)
                        (in_embedding memory) (option_map toJSON (in_metadata memory)))
      :: older.
Proof.
  intros R T M L Q. unfold queryShortTerm. rewrite remember_redis.
  unfold storeShortTerm. rewrite R. cbn [redis m_agentId m_id].
  unfold Redis.lrange, Redis.expire.
  rewrite list_at_ltrim, list_at_lpush, !range_from_zero by assumption.
  replace (Z.to_nat (number_or (shortTerm_maxItems (config mgr)) 100 + 1))
    with (Datatypes.S (Z.to_nat (number_or (shortTerm_maxItems (config mgr)) 100)))
    by lia.
  replace (Z.to_nat (number_or (q_limit query) 10 + 1))
    with (Datatypes.S (Z.to_nat (number_or (q_limit query) 10))) by lia.
  cbn [firstn flat_map].
  unfold Redis.get at 1, Redis.ltrim, Redis.lpush, Redis.setex.
  cbn [Redis.strings]. rewrite get_set_same.
  cbn [Redis.JSON_parse Redis.JSON_stringify m_id m_agentId m_timestamp m_type
       m_content m_confidence m_embedding m_metadata].
  rewrite Q. cbn [app]. eexists. reflexivity.
Qed.

(** The memory of a learning event: its metadata holds a [Date]. *)
Lemma remember_then_queryShortTerm_redis_witness :
  exists older,
    queryShortTerm
      (fst (remember (create (Scenario.with_redis 2) Redis.empty None) "a"
                     (learned_input "a" (Scenario.greeting true)
                                    (Scenario.learning 1003 [4%N]))
                     (Scenario.at_ 1003 [4%N])))
      "a" noQuery
    = VMemory (mkMemory (generateId 1003 [4%N]) "a" (IsoString 1003) Pattern
                        (JObj [("transactionId", JStr "t1"); ("success", JBool true);
                               ("pattern", JStr "greeting")])
                        (Some (9 # 10)%Q) None
                        (Some (JObj [("learned", JBool true);
                                     ("timestamp", JIsoString 1003)])))
      :: older.
Proof.
  apply (@remember_then_queryShortTerm_redis
           (create (Scenario.with_redis 2) Redis.empty None) Redis.empty
           "a" (learned_input "a" (Scenario.greeting true) (Scenario.learning 1003 [4%N]))
           (Scenario.at_ 1003 [4%N]) noQuery).
  - reflexivity.
  - simpl. lia.
  - vm_compute. discriminate.
  - vm_compute. discriminate.
  - reflexivity.
Defined.



(** *** A Supabase project whose calls fail *)

(** X25. With a Supabase client whose calls answer with an error, the
    long-term query returns the empty list, [getStats] reports a long-term
    count and a pattern count of [0], and [remember], [learn] and [forget]
    leave the project as it was: the error is absorbed by every method. *)
Theorem supabase_errors_are_absorbed (mgr : MemoryManager.t) (db : Supabase.t)
    (agentId : string) :
  supabase mgr = Some db ->
  Supabase.healthy db = false ->
  (forall query, queryLongTerm mgr agentId query = [])
  /\ longTermCount (getStats mgr agentId) = 0
  /\ patterns (getStats mgr agentId) = 0
  /\ (forall memory env,
        supabase (fst (remember mgr agentId memory env)) = Some db)
  /\ (forall outcome env, supabase (learn mgr agentId outcome env) = Some db)
  /\ (forall criteria, supabase (fst (forget mgr agentId criteria)) = Some db).
Proof.
  intros S H.
  assert (Rm : forall memory env,
             supabase (fst (remember mgr agentId memory env)) = Some db).
  { intros memory env. rewrite remember_supabase.
    destruct (is_some (longTerm (config mgr))); [|exact S].
    unfold storeLongTerm. rewrite S. unfold Supabase.insert. rewrite H.
    reflexivity. }
  split; [|split; [|split; [|split; [exact Rm|split]]]].
  - intros query. unfold queryLongTerm, Supabase.select_memories.
    now rewrite S, H.
  - unfold getStats, Supabase.count_memories, Supabase.select_pattern_confidence.
    rewrite S, H. now destruct (redis mgr).
  - unfold getStats, Supabase.count_memories, Supabase.select_pattern_confidence.
    rewrite S, H. now destruct (redis mgr).
  - intros outcome env. unfold learn.
    match goal with
    | |- context [remember ?m ?a ?i ?e] =>
        pose proof (Rm i e) as W; destruct (remember m a i e) as [mgr' id']
    end.
    cbn [fst] in W. destruct (pattern outcome) as [p|]; [|exact W].
    destruct (negb _); [|exact W].
    unfold updatePattern. rewrite W. unfold Supabase.upsert_pattern.
    now rewrite H.
  - intros criteria. unfold forget. rewrite S.
    unfold forget_longTerm, Supabase.delete_memories. rewrite H.
    now destruct (forget_inMemory _ _ _ _).
Qed.

Lemma supabase_errors_are_absorbed_witness :
  (forall query,
      queryLongTerm (create Scenario.with_supabase Redis.empty
                            (Some (Supabase.mk [unsure_row] [] false))) "a" query
      = [])
  /\ longTermCount (getStats (create Scenario.with_supabase Redis.empty
                                     (Some (Supabase.mk [unsure_row] [] false))) "a")
     = 0.
Proof.
  destruct (@supabase_errors_are_absorbed
              (create Scenario.with_supabase Redis.empty
                      (Some (Supabase.mk [unsure_row] [] false)))
              (Supabase.mk [unsure_row] [] false) "a" eq_refl eq_refl)
    as (Q & L & _).
  split; [exact Q | exact L].
Defined.
